(** * ascii_generator.py: the 5x7 banner renderer

    A shallow embedding of [render_text] and [main] from
    [ascii_generator.py] together with the tables [FONT_5x7] and
    [SIZE_PRESETS], the properties of the renderer that the specification
    states, and further properties of the renderer and of [main].

    Python values are modelled as follows.
    - [int] is [Z] (unbounded).
    - [str] is a list of Unicode code points ([N]); [len] is [length],
      [+] is [++], [s * n] is [str_mul s n].
    - a [list] indexed and updated in place is a list with stdpp's
      lookup and [alter]; an index outside the list raises [IndexError].
    - the [dict] [FONT_5x7] is a [gmap] keyed by [str].
    - a raised exception is the [Raise] case of [result].

    [render_text] takes sequences as the language defines them: of any
    length, repeated any number of times.  [render_text_rt] is the same
    code on the interpreter (CPython, 64 bit), which refuses a repetition
    count that does not fit an index-sized integer and can run out of
    memory; [main] calls that one. *)

From Stdlib Require Import ZArith NArith Ascii String.
From stdpp Require Import base numbers list list_numbers option strings.
From stdpp Require Import gmap fin_maps.

#[local] Open Scope Z_scope.

(** ** Strings *)

Abbreviation char := N (only parsing).
Abbreviation str := (list N) (only parsing).

(** An ASCII literal as a Python [str]. *)
Definition lit (s : string) : str :=
  N_of_ascii <$> list_ascii_of_string s.

Definition ch_space : char := 32%N.
Definition ch_newline : char := 10%N.
Definition ch_hash : char := 35%N.
Definition ch_zero : char := 48%N.
Definition ch_one : char := 49%N.

(** [s * n] as the language defines it: repetition, a count below one
    giving the empty string.  What the interpreter refuses of [n] is in
    [str_repeat] below. *)
Definition str_mul (s : str) (n : Z) : str :=
  mjoin (replicate (Z.to_nat n) s).

(** [sep.join(parts)]. *)
Fixpoint join (sep : str) (parts : list str) : str :=
  match parts with
  | [] => []
  | [p] => p
  | p :: ps => p ++ sep ++ join sep ps
  end.

(** [c.isspace()] for a one-character string: the code points that
    [str.rstrip()] without argument removes. *)
Definition isspace (c : char) : bool :=
  ((9 <=? c) && (c <=? 13) || (28 <=? c) && (c <=? 32)
   || (c =? 0x85) || (c =? 0xa0) || (c =? 0x1680)
   || (0x2000 <=? c) && (c <=? 0x200a)
   || (c =? 0x2028) || (c =? 0x2029) || (c =? 0x202f)
   || (c =? 0x205f) || (c =? 0x3000))%N.

(** [s.rstrip()]: drop the trailing run of whitespace. *)
Fixpoint rstrip (s : str) : str :=
  match s with
  | [] => []
  | c :: s' =>
      match rstrip s' with
      | [] => if isspace c then [] else [c]
      | t => c :: t
      end
  end.

(** ** [str.upper]

    The uppercase mapping of CPython 3.11 (Unicode 14.0): every code point
    whose uppercase form differs from itself, with that form.  A code point
    that is not listed is its own uppercase form. *)
Definition upper_entries : list (N * list N) := [
  (0x61,[0x41]); (0x62,[0x42]); (0x63,[0x43]); (0x64,[0x44]); (0x65,[0x45]); (0x66,[0x46]);
  (0x67,[0x47]); (0x68,[0x48]); (0x69,[0x49]); (0x6a,[0x4a]); (0x6b,[0x4b]); (0x6c,[0x4c]);
  (0x6d,[0x4d]); (0x6e,[0x4e]); (0x6f,[0x4f]); (0x70,[0x50]); (0x71,[0x51]); (0x72,[0x52]);
  (0x73,[0x53]); (0x74,[0x54]); (0x75,[0x55]); (0x76,[0x56]); (0x77,[0x57]); (0x78,[0x58]);
  (0x79,[0x59]); (0x7a,[0x5a]); (0xb5,[0x39c]); (0xdf,[0x53;0x53]); (0xe0,[0xc0]); (0xe1,[0xc1]);
  (0xe2,[0xc2]); (0xe3,[0xc3]); (0xe4,[0xc4]); (0xe5,[0xc5]); (0xe6,[0xc6]); (0xe7,[0xc7]);
  (0xe8,[0xc8]); (0xe9,[0xc9]); (0xea,[0xca]); (0xeb,[0xcb]); (0xec,[0xcc]); (0xed,[0xcd]);
  (0xee,[0xce]); (0xef,[0xcf]); (0xf0,[0xd0]); (0xf1,[0xd1]); (0xf2,[0xd2]); (0xf3,[0xd3]);
  (0xf4,[0xd4]); (0xf5,[0xd5]); (0xf6,[0xd6]); (0xf8,[0xd8]); (0xf9,[0xd9]); (0xfa,[0xda]);
  (0xfb,[0xdb]); (0xfc,[0xdc]); (0xfd,[0xdd]); (0xfe,[0xde]); (0xff,[0x178]); (0x101,[0x100]);
  (0x103,[0x102]); (0x105,[0x104]); (0x107,[0x106]); (0x109,[0x108]); (0x10b,[0x10a]);
  (0x10d,[0x10c]); (0x10f,[0x10e]); (0x111,[0x110]); (0x113,[0x112]); (0x115,[0x114]);
  (0x117,[0x116]); (0x119,[0x118]); (0x11b,[0x11a]); (0x11d,[0x11c]); (0x11f,[0x11e]);
  (0x121,[0x120]); (0x123,[0x122]); (0x125,[0x124]); (0x127,[0x126]); (0x129,[0x128]);
  (0x12b,[0x12a]); (0x12d,[0x12c]); (0x12f,[0x12e]); (0x131,[0x49]); (0x133,[0x132]);
  (0x135,[0x134]); (0x137,[0x136]); (0x13a,[0x139]); (0x13c,[0x13b]); (0x13e,[0x13d]);
  (0x140,[0x13f]); (0x142,[0x141]); (0x144,[0x143]); (0x146,[0x145]); (0x148,[0x147]);
  (0x149,[0x2bc;0x4e]); (0x14b,[0x14a]); (0x14d,[0x14c]); (0x14f,[0x14e]); (0x151,[0x150]);
  (0x153,[0x152]); (0x155,[0x154]); (0x157,[0x156]); (0x159,[0x158]); (0x15b,[0x15a]);
  (0x15d,[0x15c]); (0x15f,[0x15e]); (0x161,[0x160]); (0x163,[0x162]); (0x165,[0x164]);
  (0x167,[0x166]); (0x169,[0x168]); (0x16b,[0x16a]); (0x16d,[0x16c]); (0x16f,[0x16e]);
  (0x171,[0x170]); (0x173,[0x172]); (0x175,[0x174]); (0x177,[0x176]); (0x17a,[0x179]);
  (0x17c,[0x17b]); (0x17e,[0x17d]); (0x17f,[0x53]); (0x180,[0x243]); (0x183,[0x182]);
  (0x185,[0x184]); (0x188,[0x187]); (0x18c,[0x18b]); (0x192,[0x191]); (0x195,[0x1f6]);
  (0x199,[0x198]); (0x19a,[0x23d]); (0x19e,[0x220]); (0x1a1,[0x1a0]); (0x1a3,[0x1a2]);
  (0x1a5,[0x1a4]); (0x1a8,[0x1a7]); (0x1ad,[0x1ac]); (0x1b0,[0x1af]); (0x1b4,[0x1b3]);
  (0x1b6,[0x1b5]); (0x1b9,[0x1b8]); (0x1bd,[0x1bc]); (0x1bf,[0x1f7]); (0x1c5,[0x1c4]);
  (0x1c6,[0x1c4]); (0x1c8,[0x1c7]); (0x1c9,[0x1c7]); (0x1cb,[0x1ca]); (0x1cc,[0x1ca]);
  (0x1ce,[0x1cd]); (0x1d0,[0x1cf]); (0x1d2,[0x1d1]); (0x1d4,[0x1d3]); (0x1d6,[0x1d5]);
  (0x1d8,[0x1d7]); (0x1da,[0x1d9]); (0x1dc,[0x1db]); (0x1dd,[0x18e]); (0x1df,[0x1de]);
  (0x1e1,[0x1e0]); (0x1e3,[0x1e2]); (0x1e5,[0x1e4]); (0x1e7,[0x1e6]); (0x1e9,[0x1e8]);
  (0x1eb,[0x1ea]); (0x1ed,[0x1ec]); (0x1ef,[0x1ee]); (0x1f0,[0x4a;0x30c]); (0x1f2,[0x1f1]);
  (0x1f3,[0x1f1]); (0x1f5,[0x1f4]); (0x1f9,[0x1f8]); (0x1fb,[0x1fa]); (0x1fd,[0x1fc]);
  (0x1ff,[0x1fe]); (0x201,[0x200]); (0x203,[0x202]); (0x205,[0x204]); (0x207,[0x206]);
  (0x209,[0x208]); (0x20b,[0x20a]); (0x20d,[0x20c]); (0x20f,[0x20e]); (0x211,[0x210]);
  (0x213,[0x212]); (0x215,[0x214]); (0x217,[0x216]); (0x219,[0x218]); (0x21b,[0x21a]);
  (0x21d,[0x21c]); (0x21f,[0x21e]); (0x223,[0x222]); (0x225,[0x224]); (0x227,[0x226]);
  (0x229,[0x228]); (0x22b,[0x22a]); (0x22d,[0x22c]); (0x22f,[0x22e]); (0x231,[0x230]);
  (0x233,[0x232]); (0x23c,[0x23b]); (0x23f,[0x2c7e]); (0x240,[0x2c7f]); (0x242,[0x241]);
  (0x247,[0x246]); (0x249,[0x248]); (0x24b,[0x24a]); (0x24d,[0x24c]); (0x24f,[0x24e]);
  (0x250,[0x2c6f]); (0x251,[0x2c6d]); (0x252,[0x2c70]); (0x253,[0x181]); (0x254,[0x186]);
  (0x256,[0x189]); (0x257,[0x18a]); (0x259,[0x18f]); (0x25b,[0x190]); (0x25c,[0xa7ab]);
  (0x260,[0x193]); (0x261,[0xa7ac]); (0x263,[0x194]); (0x265,[0xa78d]); (0x266,[0xa7aa]);
  (0x268,[0x197]); (0x269,[0x196]); (0x26a,[0xa7ae]); (0x26b,[0x2c62]); (0x26c,[0xa7ad]);
  (0x26f,[0x19c]); (0x271,[0x2c6e]); (0x272,[0x19d]); (0x275,[0x19f]); (0x27d,[0x2c64]);
  (0x280,[0x1a6]); (0x282,[0xa7c5]); (0x283,[0x1a9]); (0x287,[0xa7b1]); (0x288,[0x1ae]);
  (0x289,[0x244]); (0x28a,[0x1b1]); (0x28b,[0x1b2]); (0x28c,[0x245]); (0x292,[0x1b7]);
  (0x29d,[0xa7b2]); (0x29e,[0xa7b0]); (0x345,[0x399]); (0x371,[0x370]); (0x373,[0x372]);
  (0x377,[0x376]); (0x37b,[0x3fd]); (0x37c,[0x3fe]); (0x37d,[0x3ff]); (0x390,[0x399;0x308;0x301]);
  (0x3ac,[0x386]); (0x3ad,[0x388]); (0x3ae,[0x389]); (0x3af,[0x38a]); (0x3b0,[0x3a5;0x308;0x301]);
  (0x3b1,[0x391]); (0x3b2,[0x392]); (0x3b3,[0x393]); (0x3b4,[0x394]); (0x3b5,[0x395]);
  (0x3b6,[0x396]); (0x3b7,[0x397]); (0x3b8,[0x398]); (0x3b9,[0x399]); (0x3ba,[0x39a]);
  (0x3bb,[0x39b]); (0x3bc,[0x39c]); (0x3bd,[0x39d]); (0x3be,[0x39e]); (0x3bf,[0x39f]);
  (0x3c0,[0x3a0]); (0x3c1,[0x3a1]); (0x3c2,[0x3a3]); (0x3c3,[0x3a3]); (0x3c4,[0x3a4]);
  (0x3c5,[0x3a5]); (0x3c6,[0x3a6]); (0x3c7,[0x3a7]); (0x3c8,[0x3a8]); (0x3c9,[0x3a9]);
  (0x3ca,[0x3aa]); (0x3cb,[0x3ab]); (0x3cc,[0x38c]); (0x3cd,[0x38e]); (0x3ce,[0x38f]);
  (0x3d0,[0x392]); (0x3d1,[0x398]); (0x3d5,[0x3a6]); (0x3d6,[0x3a0]); (0x3d7,[0x3cf]);
  (0x3d9,[0x3d8]); (0x3db,[0x3da]); (0x3dd,[0x3dc]); (0x3df,[0x3de]); (0x3e1,[0x3e0]);
  (0x3e3,[0x3e2]); (0x3e5,[0x3e4]); (0x3e7,[0x3e6]); (0x3e9,[0x3e8]); (0x3eb,[0x3ea]);
  (0x3ed,[0x3ec]); (0x3ef,[0x3ee]); (0x3f0,[0x39a]); (0x3f1,[0x3a1]); (0x3f2,[0x3f9]);
  (0x3f3,[0x37f]); (0x3f5,[0x395]); (0x3f8,[0x3f7]); (0x3fb,[0x3fa]); (0x430,[0x410]);
  (0x431,[0x411]); (0x432,[0x412]); (0x433,[0x413]); (0x434,[0x414]); (0x435,[0x415]);
  (0x436,[0x416]); (0x437,[0x417]); (0x438,[0x418]); (0x439,[0x419]); (0x43a,[0x41a]);
  (0x43b,[0x41b]); (0x43c,[0x41c]); (0x43d,[0x41d]); (0x43e,[0x41e]); (0x43f,[0x41f]);
  (0x440,[0x420]); (0x441,[0x421]); (0x442,[0x422]); (0x443,[0x423]); (0x444,[0x424]);
  (0x445,[0x425]); (0x446,[0x426]); (0x447,[0x427]); (0x448,[0x428]); (0x449,[0x429]);
  (0x44a,[0x42a]); (0x44b,[0x42b]); (0x44c,[0x42c]); (0x44d,[0x42d]); (0x44e,[0x42e]);
  (0x44f,[0x42f]); (0x450,[0x400]); (0x451,[0x401]); (0x452,[0x402]); (0x453,[0x403]);
  (0x454,[0x404]); (0x455,[0x405]); (0x456,[0x406]); (0x457,[0x407]); (0x458,[0x408]);
  (0x459,[0x409]); (0x45a,[0x40a]); (0x45b,[0x40b]); (0x45c,[0x40c]); (0x45d,[0x40d]);
  (0x45e,[0x40e]); (0x45f,[0x40f]); (0x461,[0x460]); (0x463,[0x462]); (0x465,[0x464]);
  (0x467,[0x466]); (0x469,[0x468]); (0x46b,[0x46a]); (0x46d,[0x46c]); (0x46f,[0x46e]);
  (0x471,[0x470]); (0x473,[0x472]); (0x475,[0x474]); (0x477,[0x476]); (0x479,[0x478]);
  (0x47b,[0x47a]); (0x47d,[0x47c]); (0x47f,[0x47e]); (0x481,[0x480]); (0x48b,[0x48a]);
  (0x48d,[0x48c]); (0x48f,[0x48e]); (0x491,[0x490]); (0x493,[0x492]); (0x495,[0x494]);
  (0x497,[0x496]); (0x499,[0x498]); (0x49b,[0x49a]); (0x49d,[0x49c]); (0x49f,[0x49e]);
  (0x4a1,[0x4a0]); (0x4a3,[0x4a2]); (0x4a5,[0x4a4]); (0x4a7,[0x4a6]); (0x4a9,[0x4a8]);
  (0x4ab,[0x4aa]); (0x4ad,[0x4ac]); (0x4af,[0x4ae]); (0x4b1,[0x4b0]); (0x4b3,[0x4b2]);
  (0x4b5,[0x4b4]); (0x4b7,[0x4b6]); (0x4b9,[0x4b8]); (0x4bb,[0x4ba]); (0x4bd,[0x4bc]);
  (0x4bf,[0x4be]); (0x4c2,[0x4c1]); (0x4c4,[0x4c3]); (0x4c6,[0x4c5]); (0x4c8,[0x4c7]);
  (0x4ca,[0x4c9]); (0x4cc,[0x4cb]); (0x4ce,[0x4cd]); (0x4cf,[0x4c0]); (0x4d1,[0x4d0]);
  (0x4d3,[0x4d2]); (0x4d5,[0x4d4]); (0x4d7,[0x4d6]); (0x4d9,[0x4d8]); (0x4db,[0x4da]);
  (0x4dd,[0x4dc]); (0x4df,[0x4de]); (0x4e1,[0x4e0]); (0x4e3,[0x4e2]); (0x4e5,[0x4e4]);
  (0x4e7,[0x4e6]); (0x4e9,[0x4e8]); (0x4eb,[0x4ea]); (0x4ed,[0x4ec]); (0x4ef,[0x4ee]);
  (0x4f1,[0x4f0]); (0x4f3,[0x4f2]); (0x4f5,[0x4f4]); (0x4f7,[0x4f6]); (0x4f9,[0x4f8]);
  (0x4fb,[0x4fa]); (0x4fd,[0x4fc]); (0x4ff,[0x4fe]); (0x501,[0x500]); (0x503,[0x502]);
  (0x505,[0x504]); (0x507,[0x506]); (0x509,[0x508]); (0x50b,[0x50a]); (0x50d,[0x50c]);
  (0x50f,[0x50e]); (0x511,[0x510]); (0x513,[0x512]); (0x515,[0x514]); (0x517,[0x516]);
  (0x519,[0x518]); (0x51b,[0x51a]); (0x51d,[0x51c]); (0x51f,[0x51e]); (0x521,[0x520]);
  (0x523,[0x522]); (0x525,[0x524]); (0x527,[0x526]); (0x529,[0x528]); (0x52b,[0x52a]);
  (0x52d,[0x52c]); (0x52f,[0x52e]); (0x561,[0x531]); (0x562,[0x532]); (0x563,[0x533]);
  (0x564,[0x534]); (0x565,[0x535]); (0x566,[0x536]); (0x567,[0x537]); (0x568,[0x538]);
  (0x569,[0x539]); (0x56a,[0x53a]); (0x56b,[0x53b]); (0x56c,[0x53c]); (0x56d,[0x53d]);
  (0x56e,[0x53e]); (0x56f,[0x53f]); (0x570,[0x540]); (0x571,[0x541]); (0x572,[0x542]);
  (0x573,[0x543]); (0x574,[0x544]); (0x575,[0x545]); (0x576,[0x546]); (0x577,[0x547]);
  (0x578,[0x548]); (0x579,[0x549]); (0x57a,[0x54a]); (0x57b,[0x54b]); (0x57c,[0x54c]);
  (0x57d,[0x54d]); (0x57e,[0x54e]); (0x57f,[0x54f]); (0x580,[0x550]); (0x581,[0x551]);
  (0x582,[0x552]); (0x583,[0x553]); (0x584,[0x554]); (0x585,[0x555]); (0x586,[0x556]);
  (0x587,[0x535;0x552]); (0x10d0,[0x1c90]); (0x10d1,[0x1c91]); (0x10d2,[0x1c92]);
  (0x10d3,[0x1c93]); (0x10d4,[0x1c94]); (0x10d5,[0x1c95]); (0x10d6,[0x1c96]); (0x10d7,[0x1c97]);
  (0x10d8,[0x1c98]); (0x10d9,[0x1c99]); (0x10da,[0x1c9a]); (0x10db,[0x1c9b]); (0x10dc,[0x1c9c]);
  (0x10dd,[0x1c9d]); (0x10de,[0x1c9e]); (0x10df,[0x1c9f]); (0x10e0,[0x1ca0]); (0x10e1,[0x1ca1]);
  (0x10e2,[0x1ca2]); (0x10e3,[0x1ca3]); (0x10e4,[0x1ca4]); (0x10e5,[0x1ca5]); (0x10e6,[0x1ca6]);
  (0x10e7,[0x1ca7]); (0x10e8,[0x1ca8]); (0x10e9,[0x1ca9]); (0x10ea,[0x1caa]); (0x10eb,[0x1cab]);
  (0x10ec,[0x1cac]); (0x10ed,[0x1cad]); (0x10ee,[0x1cae]); (0x10ef,[0x1caf]); (0x10f0,[0x1cb0]);
  (0x10f1,[0x1cb1]); (0x10f2,[0x1cb2]); (0x10f3,[0x1cb3]); (0x10f4,[0x1cb4]); (0x10f5,[0x1cb5]);
  (0x10f6,[0x1cb6]); (0x10f7,[0x1cb7]); (0x10f8,[0x1cb8]); (0x10f9,[0x1cb9]); (0x10fa,[0x1cba]);
  (0x10fd,[0x1cbd]); (0x10fe,[0x1cbe]); (0x10ff,[0x1cbf]); (0x13f8,[0x13f0]); (0x13f9,[0x13f1]);
  (0x13fa,[0x13f2]); (0x13fb,[0x13f3]); (0x13fc,[0x13f4]); (0x13fd,[0x13f5]); (0x1c80,[0x412]);
  (0x1c81,[0x414]); (0x1c82,[0x41e]); (0x1c83,[0x421]); (0x1c84,[0x422]); (0x1c85,[0x422]);
  (0x1c86,[0x42a]); (0x1c87,[0x462]); (0x1c88,[0xa64a]); (0x1d79,[0xa77d]); (0x1d7d,[0x2c63]);
  (0x1d8e,[0xa7c6]); (0x1e01,[0x1e00]); (0x1e03,[0x1e02]); (0x1e05,[0x1e04]); (0x1e07,[0x1e06]);
  (0x1e09,[0x1e08]); (0x1e0b,[0x1e0a]); (0x1e0d,[0x1e0c]); (0x1e0f,[0x1e0e]); (0x1e11,[0x1e10]);
  (0x1e13,[0x1e12]); (0x1e15,[0x1e14]); (0x1e17,[0x1e16]); (0x1e19,[0x1e18]); (0x1e1b,[0x1e1a]);
  (0x1e1d,[0x1e1c]); (0x1e1f,[0x1e1e]); (0x1e21,[0x1e20]); (0x1e23,[0x1e22]); (0x1e25,[0x1e24]);
  (0x1e27,[0x1e26]); (0x1e29,[0x1e28]); (0x1e2b,[0x1e2a]); (0x1e2d,[0x1e2c]); (0x1e2f,[0x1e2e]);
  (0x1e31,[0x1e30]); (0x1e33,[0x1e32]); (0x1e35,[0x1e34]); (0x1e37,[0x1e36]); (0x1e39,[0x1e38]);
  (0x1e3b,[0x1e3a]); (0x1e3d,[0x1e3c]); (0x1e3f,[0x1e3e]); (0x1e41,[0x1e40]); (0x1e43,[0x1e42]);
  (0x1e45,[0x1e44]); (0x1e47,[0x1e46]); (0x1e49,[0x1e48]); (0x1e4b,[0x1e4a]); (0x1e4d,[0x1e4c]);
  (0x1e4f,[0x1e4e]); (0x1e51,[0x1e50]); (0x1e53,[0x1e52]); (0x1e55,[0x1e54]); (0x1e57,[0x1e56]);
  (0x1e59,[0x1e58]); (0x1e5b,[0x1e5a]); (0x1e5d,[0x1e5c]); (0x1e5f,[0x1e5e]); (0x1e61,[0x1e60]);
  (0x1e63,[0x1e62]); (0x1e65,[0x1e64]); (0x1e67,[0x1e66]); (0x1e69,[0x1e68]); (0x1e6b,[0x1e6a]);
  (0x1e6d,[0x1e6c]); (0x1e6f,[0x1e6e]); (0x1e71,[0x1e70]); (0x1e73,[0x1e72]); (0x1e75,[0x1e74]);
  (0x1e77,[0x1e76]); (0x1e79,[0x1e78]); (0x1e7b,[0x1e7a]); (0x1e7d,[0x1e7c]); (0x1e7f,[0x1e7e]);
  (0x1e81,[0x1e80]); (0x1e83,[0x1e82]); (0x1e85,[0x1e84]); (0x1e87,[0x1e86]); (0x1e89,[0x1e88]);
  (0x1e8b,[0x1e8a]); (0x1e8d,[0x1e8c]); (0x1e8f,[0x1e8e]); (0x1e91,[0x1e90]); (0x1e93,[0x1e92]);
  (0x1e95,[0x1e94]); (0x1e96,[0x48;0x331]); (0x1e97,[0x54;0x308]); (0x1e98,[0x57;0x30a]);
  (0x1e99,[0x59;0x30a]); (0x1e9a,[0x41;0x2be]); (0x1e9b,[0x1e60]); (0x1ea1,[0x1ea0]);
  (0x1ea3,[0x1ea2]); (0x1ea5,[0x1ea4]); (0x1ea7,[0x1ea6]); (0x1ea9,[0x1ea8]); (0x1eab,[0x1eaa]);
  (0x1ead,[0x1eac]); (0x1eaf,[0x1eae]); (0x1eb1,[0x1eb0]); (0x1eb3,[0x1eb2]); (0x1eb5,[0x1eb4]);
  (0x1eb7,[0x1eb6]); (0x1eb9,[0x1eb8]); (0x1ebb,[0x1eba]); (0x1ebd,[0x1ebc]); (0x1ebf,[0x1ebe]);
  (0x1ec1,[0x1ec0]); (0x1ec3,[0x1ec2]); (0x1ec5,[0x1ec4]); (0x1ec7,[0x1ec6]); (0x1ec9,[0x1ec8]);
  (0x1ecb,[0x1eca]); (0x1ecd,[0x1ecc]); (0x1ecf,[0x1ece]); (0x1ed1,[0x1ed0]); (0x1ed3,[0x1ed2]);
  (0x1ed5,[0x1ed4]); (0x1ed7,[0x1ed6]); (0x1ed9,[0x1ed8]); (0x1edb,[0x1eda]); (0x1edd,[0x1edc]);
  (0x1edf,[0x1ede]); (0x1ee1,[0x1ee0]); (0x1ee3,[0x1ee2]); (0x1ee5,[0x1ee4]); (0x1ee7,[0x1ee6]);
  (0x1ee9,[0x1ee8]); (0x1eeb,[0x1eea]); (0x1eed,[0x1eec]); (0x1eef,[0x1eee]); (0x1ef1,[0x1ef0]);
  (0x1ef3,[0x1ef2]); (0x1ef5,[0x1ef4]); (0x1ef7,[0x1ef6]); (0x1ef9,[0x1ef8]); (0x1efb,[0x1efa]);
  (0x1efd,[0x1efc]); (0x1eff,[0x1efe]); (0x1f00,[0x1f08]); (0x1f01,[0x1f09]); (0x1f02,[0x1f0a]);
  (0x1f03,[0x1f0b]); (0x1f04,[0x1f0c]); (0x1f05,[0x1f0d]); (0x1f06,[0x1f0e]); (0x1f07,[0x1f0f]);
  (0x1f10,[0x1f18]); (0x1f11,[0x1f19]); (0x1f12,[0x1f1a]); (0x1f13,[0x1f1b]); (0x1f14,[0x1f1c]);
  (0x1f15,[0x1f1d]); (0x1f20,[0x1f28]); (0x1f21,[0x1f29]); (0x1f22,[0x1f2a]); (0x1f23,[0x1f2b]);
  (0x1f24,[0x1f2c]); (0x1f25,[0x1f2d]); (0x1f26,[0x1f2e]); (0x1f27,[0x1f2f]); (0x1f30,[0x1f38]);
  (0x1f31,[0x1f39]); (0x1f32,[0x1f3a]); (0x1f33,[0x1f3b]); (0x1f34,[0x1f3c]); (0x1f35,[0x1f3d]);
  (0x1f36,[0x1f3e]); (0x1f37,[0x1f3f]); (0x1f40,[0x1f48]); (0x1f41,[0x1f49]); (0x1f42,[0x1f4a]);
  (0x1f43,[0x1f4b]); (0x1f44,[0x1f4c]); (0x1f45,[0x1f4d]); (0x1f50,[0x3a5;0x313]);
  (0x1f51,[0x1f59]); (0x1f52,[0x3a5;0x313;0x300]); (0x1f53,[0x1f5b]); (0x1f54,[0x3a5;0x313;0x301]);
  (0x1f55,[0x1f5d]); (0x1f56,[0x3a5;0x313;0x342]); (0x1f57,[0x1f5f]); (0x1f60,[0x1f68]);
  (0x1f61,[0x1f69]); (0x1f62,[0x1f6a]); (0x1f63,[0x1f6b]); (0x1f64,[0x1f6c]); (0x1f65,[0x1f6d]);
  (0x1f66,[0x1f6e]); (0x1f67,[0x1f6f]); (0x1f70,[0x1fba]); (0x1f71,[0x1fbb]); (0x1f72,[0x1fc8]);
  (0x1f73,[0x1fc9]); (0x1f74,[0x1fca]); (0x1f75,[0x1fcb]); (0x1f76,[0x1fda]); (0x1f77,[0x1fdb]);
  (0x1f78,[0x1ff8]); (0x1f79,[0x1ff9]); (0x1f7a,[0x1fea]); (0x1f7b,[0x1feb]); (0x1f7c,[0x1ffa]);
  (0x1f7d,[0x1ffb]); (0x1f80,[0x1f08;0x399]); (0x1f81,[0x1f09;0x399]); (0x1f82,[0x1f0a;0x399]);
  (0x1f83,[0x1f0b;0x399]); (0x1f84,[0x1f0c;0x399]); (0x1f85,[0x1f0d;0x399]);
  (0x1f86,[0x1f0e;0x399]); (0x1f87,[0x1f0f;0x399]); (0x1f88,[0x1f08;0x399]);
  (0x1f89,[0x1f09;0x399]); (0x1f8a,[0x1f0a;0x399]); (0x1f8b,[0x1f0b;0x399]);
  (0x1f8c,[0x1f0c;0x399]); (0x1f8d,[0x1f0d;0x399]); (0x1f8e,[0x1f0e;0x399]);
  (0x1f8f,[0x1f0f;0x399]); (0x1f90,[0x1f28;0x399]); (0x1f91,[0x1f29;0x399]);
  (0x1f92,[0x1f2a;0x399]); (0x1f93,[0x1f2b;0x399]); (0x1f94,[0x1f2c;0x399]);
  (0x1f95,[0x1f2d;0x399]); (0x1f96,[0x1f2e;0x399]); (0x1f97,[0x1f2f;0x399]);
  (0x1f98,[0x1f28;0x399]); (0x1f99,[0x1f29;0x399]); (0x1f9a,[0x1f2a;0x399]);
  (0x1f9b,[0x1f2b;0x399]); (0x1f9c,[0x1f2c;0x399]); (0x1f9d,[0x1f2d;0x399]);
  (0x1f9e,[0x1f2e;0x399]); (0x1f9f,[0x1f2f;0x399]); (0x1fa0,[0x1f68;0x399]);
  (0x1fa1,[0x1f69;0x399]); (0x1fa2,[0x1f6a;0x399]); (0x1fa3,[0x1f6b;0x399]);
  (0x1fa4,[0x1f6c;0x399]); (0x1fa5,[0x1f6d;0x399]); (0x1fa6,[0x1f6e;0x399]);
  (0x1fa7,[0x1f6f;0x399]); (0x1fa8,[0x1f68;0x399]); (0x1fa9,[0x1f69;0x399]);
  (0x1faa,[0x1f6a;0x399]); (0x1fab,[0x1f6b;0x399]); (0x1fac,[0x1f6c;0x399]);
  (0x1fad,[0x1f6d;0x399]); (0x1fae,[0x1f6e;0x399]); (0x1faf,[0x1f6f;0x399]); (0x1fb0,[0x1fb8]);
  (0x1fb1,[0x1fb9]); (0x1fb2,[0x1fba;0x399]); (0x1fb3,[0x391;0x399]); (0x1fb4,[0x386;0x399]);
  (0x1fb6,[0x391;0x342]); (0x1fb7,[0x391;0x342;0x399]); (0x1fbc,[0x391;0x399]); (0x1fbe,[0x399]);
  (0x1fc2,[0x1fca;0x399]); (0x1fc3,[0x397;0x399]); (0x1fc4,[0x389;0x399]); (0x1fc6,[0x397;0x342]);
  (0x1fc7,[0x397;0x342;0x399]); (0x1fcc,[0x397;0x399]); (0x1fd0,[0x1fd8]); (0x1fd1,[0x1fd9]);
  (0x1fd2,[0x399;0x308;0x300]); (0x1fd3,[0x399;0x308;0x301]); (0x1fd6,[0x399;0x342]);
  (0x1fd7,[0x399;0x308;0x342]); (0x1fe0,[0x1fe8]); (0x1fe1,[0x1fe9]); (0x1fe2,[0x3a5;0x308;0x300]);
  (0x1fe3,[0x3a5;0x308;0x301]); (0x1fe4,[0x3a1;0x313]); (0x1fe5,[0x1fec]); (0x1fe6,[0x3a5;0x342]);
  (0x1fe7,[0x3a5;0x308;0x342]); (0x1ff2,[0x1ffa;0x399]); (0x1ff3,[0x3a9;0x399]);
  (0x1ff4,[0x38f;0x399]); (0x1ff6,[0x3a9;0x342]); (0x1ff7,[0x3a9;0x342;0x399]);
  (0x1ffc,[0x3a9;0x399]); (0x214e,[0x2132]); (0x2170,[0x2160]); (0x2171,[0x2161]);
  (0x2172,[0x2162]); (0x2173,[0x2163]); (0x2174,[0x2164]); (0x2175,[0x2165]); (0x2176,[0x2166]);
  (0x2177,[0x2167]); (0x2178,[0x2168]); (0x2179,[0x2169]); (0x217a,[0x216a]); (0x217b,[0x216b]);
  (0x217c,[0x216c]); (0x217d,[0x216d]); (0x217e,[0x216e]); (0x217f,[0x216f]); (0x2184,[0x2183]);
  (0x24d0,[0x24b6]); (0x24d1,[0x24b7]); (0x24d2,[0x24b8]); (0x24d3,[0x24b9]); (0x24d4,[0x24ba]);
  (0x24d5,[0x24bb]); (0x24d6,[0x24bc]); (0x24d7,[0x24bd]); (0x24d8,[0x24be]); (0x24d9,[0x24bf]);
  (0x24da,[0x24c0]); (0x24db,[0x24c1]); (0x24dc,[0x24c2]); (0x24dd,[0x24c3]); (0x24de,[0x24c4]);
  (0x24df,[0x24c5]); (0x24e0,[0x24c6]); (0x24e1,[0x24c7]); (0x24e2,[0x24c8]); (0x24e3,[0x24c9]);
  (0x24e4,[0x24ca]); (0x24e5,[0x24cb]); (0x24e6,[0x24cc]); (0x24e7,[0x24cd]); (0x24e8,[0x24ce]);
  (0x24e9,[0x24cf]); (0x2c30,[0x2c00]); (0x2c31,[0x2c01]); (0x2c32,[0x2c02]); (0x2c33,[0x2c03]);
  (0x2c34,[0x2c04]); (0x2c35,[0x2c05]); (0x2c36,[0x2c06]); (0x2c37,[0x2c07]); (0x2c38,[0x2c08]);
  (0x2c39,[0x2c09]); (0x2c3a,[0x2c0a]); (0x2c3b,[0x2c0b]); (0x2c3c,[0x2c0c]); (0x2c3d,[0x2c0d]);
  (0x2c3e,[0x2c0e]); (0x2c3f,[0x2c0f]); (0x2c40,[0x2c10]); (0x2c41,[0x2c11]); (0x2c42,[0x2c12]);
  (0x2c43,[0x2c13]); (0x2c44,[0x2c14]); (0x2c45,[0x2c15]); (0x2c46,[0x2c16]); (0x2c47,[0x2c17]);
  (0x2c48,[0x2c18]); (0x2c49,[0x2c19]); (0x2c4a,[0x2c1a]); (0x2c4b,[0x2c1b]); (0x2c4c,[0x2c1c]);
  (0x2c4d,[0x2c1d]); (0x2c4e,[0x2c1e]); (0x2c4f,[0x2c1f]); (0x2c50,[0x2c20]); (0x2c51,[0x2c21]);
  (0x2c52,[0x2c22]); (0x2c53,[0x2c23]); (0x2c54,[0x2c24]); (0x2c55,[0x2c25]); (0x2c56,[0x2c26]);
  (0x2c57,[0x2c27]); (0x2c58,[0x2c28]); (0x2c59,[0x2c29]); (0x2c5a,[0x2c2a]); (0x2c5b,[0x2c2b]);
  (0x2c5c,[0x2c2c]); (0x2c5d,[0x2c2d]); (0x2c5e,[0x2c2e]); (0x2c5f,[0x2c2f]); (0x2c61,[0x2c60]);
  (0x2c65,[0x23a]); (0x2c66,[0x23e]); (0x2c68,[0x2c67]); (0x2c6a,[0x2c69]); (0x2c6c,[0x2c6b]);
  (0x2c73,[0x2c72]); (0x2c76,[0x2c75]); (0x2c81,[0x2c80]); (0x2c83,[0x2c82]); (0x2c85,[0x2c84]);
  (0x2c87,[0x2c86]); (0x2c89,[0x2c88]); (0x2c8b,[0x2c8a]); (0x2c8d,[0x2c8c]); (0x2c8f,[0x2c8e]);
  (0x2c91,[0x2c90]); (0x2c93,[0x2c92]); (0x2c95,[0x2c94]); (0x2c97,[0x2c96]); (0x2c99,[0x2c98]);
  (0x2c9b,[0x2c9a]); (0x2c9d,[0x2c9c]); (0x2c9f,[0x2c9e]); (0x2ca1,[0x2ca0]); (0x2ca3,[0x2ca2]);
  (0x2ca5,[0x2ca4]); (0x2ca7,[0x2ca6]); (0x2ca9,[0x2ca8]); (0x2cab,[0x2caa]); (0x2cad,[0x2cac]);
  (0x2caf,[0x2cae]); (0x2cb1,[0x2cb0]); (0x2cb3,[0x2cb2]); (0x2cb5,[0x2cb4]); (0x2cb7,[0x2cb6]);
  (0x2cb9,[0x2cb8]); (0x2cbb,[0x2cba]); (0x2cbd,[0x2cbc]); (0x2cbf,[0x2cbe]); (0x2cc1,[0x2cc0]);
  (0x2cc3,[0x2cc2]); (0x2cc5,[0x2cc4]); (0x2cc7,[0x2cc6]); (0x2cc9,[0x2cc8]); (0x2ccb,[0x2cca]);
  (0x2ccd,[0x2ccc]); (0x2ccf,[0x2cce]); (0x2cd1,[0x2cd0]); (0x2cd3,[0x2cd2]); (0x2cd5,[0x2cd4]);
  (0x2cd7,[0x2cd6]); (0x2cd9,[0x2cd8]); (0x2cdb,[0x2cda]); (0x2cdd,[0x2cdc]); (0x2cdf,[0x2cde]);
  (0x2ce1,[0x2ce0]); (0x2ce3,[0x2ce2]); (0x2cec,[0x2ceb]); (0x2cee,[0x2ced]); (0x2cf3,[0x2cf2]);
  (0x2d00,[0x10a0]); (0x2d01,[0x10a1]); (0x2d02,[0x10a2]); (0x2d03,[0x10a3]); (0x2d04,[0x10a4]);
  (0x2d05,[0x10a5]); (0x2d06,[0x10a6]); (0x2d07,[0x10a7]); (0x2d08,[0x10a8]); (0x2d09,[0x10a9]);
  (0x2d0a,[0x10aa]); (0x2d0b,[0x10ab]); (0x2d0c,[0x10ac]); (0x2d0d,[0x10ad]); (0x2d0e,[0x10ae]);
  (0x2d0f,[0x10af]); (0x2d10,[0x10b0]); (0x2d11,[0x10b1]); (0x2d12,[0x10b2]); (0x2d13,[0x10b3]);
  (0x2d14,[0x10b4]); (0x2d15,[0x10b5]); (0x2d16,[0x10b6]); (0x2d17,[0x10b7]); (0x2d18,[0x10b8]);
  (0x2d19,[0x10b9]); (0x2d1a,[0x10ba]); (0x2d1b,[0x10bb]); (0x2d1c,[0x10bc]); (0x2d1d,[0x10bd]);
  (0x2d1e,[0x10be]); (0x2d1f,[0x10bf]); (0x2d20,[0x10c0]); (0x2d21,[0x10c1]); (0x2d22,[0x10c2]);
  (0x2d23,[0x10c3]); (0x2d24,[0x10c4]); (0x2d25,[0x10c5]); (0x2d27,[0x10c7]); (0x2d2d,[0x10cd]);
  (0xa641,[0xa640]); (0xa643,[0xa642]); (0xa645,[0xa644]); (0xa647,[0xa646]); (0xa649,[0xa648]);
  (0xa64b,[0xa64a]); (0xa64d,[0xa64c]); (0xa64f,[0xa64e]); (0xa651,[0xa650]); (0xa653,[0xa652]);
  (0xa655,[0xa654]); (0xa657,[0xa656]); (0xa659,[0xa658]); (0xa65b,[0xa65a]); (0xa65d,[0xa65c]);
  (0xa65f,[0xa65e]); (0xa661,[0xa660]); (0xa663,[0xa662]); (0xa665,[0xa664]); (0xa667,[0xa666]);
  (0xa669,[0xa668]); (0xa66b,[0xa66a]); (0xa66d,[0xa66c]); (0xa681,[0xa680]); (0xa683,[0xa682]);
  (0xa685,[0xa684]); (0xa687,[0xa686]); (0xa689,[0xa688]); (0xa68b,[0xa68a]); (0xa68d,[0xa68c]);
  (0xa68f,[0xa68e]); (0xa691,[0xa690]); (0xa693,[0xa692]); (0xa695,[0xa694]); (0xa697,[0xa696]);
  (0xa699,[0xa698]); (0xa69b,[0xa69a]); (0xa723,[0xa722]); (0xa725,[0xa724]); (0xa727,[0xa726]);
  (0xa729,[0xa728]); (0xa72b,[0xa72a]); (0xa72d,[0xa72c]); (0xa72f,[0xa72e]); (0xa733,[0xa732]);
  (0xa735,[0xa734]); (0xa737,[0xa736]); (0xa739,[0xa738]); (0xa73b,[0xa73a]); (0xa73d,[0xa73c]);
  (0xa73f,[0xa73e]); (0xa741,[0xa740]); (0xa743,[0xa742]); (0xa745,[0xa744]); (0xa747,[0xa746]);
  (0xa749,[0xa748]); (0xa74b,[0xa74a]); (0xa74d,[0xa74c]); (0xa74f,[0xa74e]); (0xa751,[0xa750]);
  (0xa753,[0xa752]); (0xa755,[0xa754]); (0xa757,[0xa756]); (0xa759,[0xa758]); (0xa75b,[0xa75a]);
  (0xa75d,[0xa75c]); (0xa75f,[0xa75e]); (0xa761,[0xa760]); (0xa763,[0xa762]); (0xa765,[0xa764]);
  (0xa767,[0xa766]); (0xa769,[0xa768]); (0xa76b,[0xa76a]); (0xa76d,[0xa76c]); (0xa76f,[0xa76e]);
  (0xa77a,[0xa779]); (0xa77c,[0xa77b]); (0xa77f,[0xa77e]); (0xa781,[0xa780]); (0xa783,[0xa782]);
  (0xa785,[0xa784]); (0xa787,[0xa786]); (0xa78c,[0xa78b]); (0xa791,[0xa790]); (0xa793,[0xa792]);
  (0xa794,[0xa7c4]); (0xa797,[0xa796]); (0xa799,[0xa798]); (0xa79b,[0xa79a]); (0xa79d,[0xa79c]);
  (0xa79f,[0xa79e]); (0xa7a1,[0xa7a0]); (0xa7a3,[0xa7a2]); (0xa7a5,[0xa7a4]); (0xa7a7,[0xa7a6]);
  (0xa7a9,[0xa7a8]); (0xa7b5,[0xa7b4]); (0xa7b7,[0xa7b6]); (0xa7b9,[0xa7b8]); (0xa7bb,[0xa7ba]);
  (0xa7bd,[0xa7bc]); (0xa7bf,[0xa7be]); (0xa7c1,[0xa7c0]); (0xa7c3,[0xa7c2]); (0xa7c8,[0xa7c7]);
  (0xa7ca,[0xa7c9]); (0xa7d1,[0xa7d0]); (0xa7d7,[0xa7d6]); (0xa7d9,[0xa7d8]); (0xa7f6,[0xa7f5]);
  (0xab53,[0xa7b3]); (0xab70,[0x13a0]); (0xab71,[0x13a1]); (0xab72,[0x13a2]); (0xab73,[0x13a3]);
  (0xab74,[0x13a4]); (0xab75,[0x13a5]); (0xab76,[0x13a6]); (0xab77,[0x13a7]); (0xab78,[0x13a8]);
  (0xab79,[0x13a9]); (0xab7a,[0x13aa]); (0xab7b,[0x13ab]); (0xab7c,[0x13ac]); (0xab7d,[0x13ad]);
  (0xab7e,[0x13ae]); (0xab7f,[0x13af]); (0xab80,[0x13b0]); (0xab81,[0x13b1]); (0xab82,[0x13b2]);
  (0xab83,[0x13b3]); (0xab84,[0x13b4]); (0xab85,[0x13b5]); (0xab86,[0x13b6]); (0xab87,[0x13b7]);
  (0xab88,[0x13b8]); (0xab89,[0x13b9]); (0xab8a,[0x13ba]); (0xab8b,[0x13bb]); (0xab8c,[0x13bc]);
  (0xab8d,[0x13bd]); (0xab8e,[0x13be]); (0xab8f,[0x13bf]); (0xab90,[0x13c0]); (0xab91,[0x13c1]);
  (0xab92,[0x13c2]); (0xab93,[0x13c3]); (0xab94,[0x13c4]); (0xab95,[0x13c5]); (0xab96,[0x13c6]);
  (0xab97,[0x13c7]); (0xab98,[0x13c8]); (0xab99,[0x13c9]); (0xab9a,[0x13ca]); (0xab9b,[0x13cb]);
  (0xab9c,[0x13cc]); (0xab9d,[0x13cd]); (0xab9e,[0x13ce]); (0xab9f,[0x13cf]); (0xaba0,[0x13d0]);
  (0xaba1,[0x13d1]); (0xaba2,[0x13d2]); (0xaba3,[0x13d3]); (0xaba4,[0x13d4]); (0xaba5,[0x13d5]);
  (0xaba6,[0x13d6]); (0xaba7,[0x13d7]); (0xaba8,[0x13d8]); (0xaba9,[0x13d9]); (0xabaa,[0x13da]);
  (0xabab,[0x13db]); (0xabac,[0x13dc]); (0xabad,[0x13dd]); (0xabae,[0x13de]); (0xabaf,[0x13df]);
  (0xabb0,[0x13e0]); (0xabb1,[0x13e1]); (0xabb2,[0x13e2]); (0xabb3,[0x13e3]); (0xabb4,[0x13e4]);
  (0xabb5,[0x13e5]); (0xabb6,[0x13e6]); (0xabb7,[0x13e7]); (0xabb8,[0x13e8]); (0xabb9,[0x13e9]);
  (0xabba,[0x13ea]); (0xabbb,[0x13eb]); (0xabbc,[0x13ec]); (0xabbd,[0x13ed]); (0xabbe,[0x13ee]);
  (0xabbf,[0x13ef]); (0xfb00,[0x46;0x46]); (0xfb01,[0x46;0x49]); (0xfb02,[0x46;0x4c]);
  (0xfb03,[0x46;0x46;0x49]); (0xfb04,[0x46;0x46;0x4c]); (0xfb05,[0x53;0x54]); (0xfb06,[0x53;0x54]);
  (0xfb13,[0x544;0x546]); (0xfb14,[0x544;0x535]); (0xfb15,[0x544;0x53b]); (0xfb16,[0x54e;0x546]);
  (0xfb17,[0x544;0x53d]); (0xff41,[0xff21]); (0xff42,[0xff22]); (0xff43,[0xff23]);
  (0xff44,[0xff24]); (0xff45,[0xff25]); (0xff46,[0xff26]); (0xff47,[0xff27]); (0xff48,[0xff28]);
  (0xff49,[0xff29]); (0xff4a,[0xff2a]); (0xff4b,[0xff2b]); (0xff4c,[0xff2c]); (0xff4d,[0xff2d]);
  (0xff4e,[0xff2e]); (0xff4f,[0xff2f]); (0xff50,[0xff30]); (0xff51,[0xff31]); (0xff52,[0xff32]);
  (0xff53,[0xff33]); (0xff54,[0xff34]); (0xff55,[0xff35]); (0xff56,[0xff36]); (0xff57,[0xff37]);
  (0xff58,[0xff38]); (0xff59,[0xff39]); (0xff5a,[0xff3a]); (0x10428,[0x10400]);
  (0x10429,[0x10401]); (0x1042a,[0x10402]); (0x1042b,[0x10403]); (0x1042c,[0x10404]);
  (0x1042d,[0x10405]); (0x1042e,[0x10406]); (0x1042f,[0x10407]); (0x10430,[0x10408]);
  (0x10431,[0x10409]); (0x10432,[0x1040a]); (0x10433,[0x1040b]); (0x10434,[0x1040c]);
  (0x10435,[0x1040d]); (0x10436,[0x1040e]); (0x10437,[0x1040f]); (0x10438,[0x10410]);
  (0x10439,[0x10411]); (0x1043a,[0x10412]); (0x1043b,[0x10413]); (0x1043c,[0x10414]);
  (0x1043d,[0x10415]); (0x1043e,[0x10416]); (0x1043f,[0x10417]); (0x10440,[0x10418]);
  (0x10441,[0x10419]); (0x10442,[0x1041a]); (0x10443,[0x1041b]); (0x10444,[0x1041c]);
  (0x10445,[0x1041d]); (0x10446,[0x1041e]); (0x10447,[0x1041f]); (0x10448,[0x10420]);
  (0x10449,[0x10421]); (0x1044a,[0x10422]); (0x1044b,[0x10423]); (0x1044c,[0x10424]);
  (0x1044d,[0x10425]); (0x1044e,[0x10426]); (0x1044f,[0x10427]); (0x104d8,[0x104b0]);
  (0x104d9,[0x104b1]); (0x104da,[0x104b2]); (0x104db,[0x104b3]); (0x104dc,[0x104b4]);
  (0x104dd,[0x104b5]); (0x104de,[0x104b6]); (0x104df,[0x104b7]); (0x104e0,[0x104b8]);
  (0x104e1,[0x104b9]); (0x104e2,[0x104ba]); (0x104e3,[0x104bb]); (0x104e4,[0x104bc]);
  (0x104e5,[0x104bd]); (0x104e6,[0x104be]); (0x104e7,[0x104bf]); (0x104e8,[0x104c0]);
  (0x104e9,[0x104c1]); (0x104ea,[0x104c2]); (0x104eb,[0x104c3]); (0x104ec,[0x104c4]);
  (0x104ed,[0x104c5]); (0x104ee,[0x104c6]); (0x104ef,[0x104c7]); (0x104f0,[0x104c8]);
  (0x104f1,[0x104c9]); (0x104f2,[0x104ca]); (0x104f3,[0x104cb]); (0x104f4,[0x104cc]);
  (0x104f5,[0x104cd]); (0x104f6,[0x104ce]); (0x104f7,[0x104cf]); (0x104f8,[0x104d0]);
  (0x104f9,[0x104d1]); (0x104fa,[0x104d2]); (0x104fb,[0x104d3]); (0x10597,[0x10570]);
  (0x10598,[0x10571]); (0x10599,[0x10572]); (0x1059a,[0x10573]); (0x1059b,[0x10574]);
  (0x1059c,[0x10575]); (0x1059d,[0x10576]); (0x1059e,[0x10577]); (0x1059f,[0x10578]);
  (0x105a0,[0x10579]); (0x105a1,[0x1057a]); (0x105a3,[0x1057c]); (0x105a4,[0x1057d]);
  (0x105a5,[0x1057e]); (0x105a6,[0x1057f]); (0x105a7,[0x10580]); (0x105a8,[0x10581]);
  (0x105a9,[0x10582]); (0x105aa,[0x10583]); (0x105ab,[0x10584]); (0x105ac,[0x10585]);
  (0x105ad,[0x10586]); (0x105ae,[0x10587]); (0x105af,[0x10588]); (0x105b0,[0x10589]);
  (0x105b1,[0x1058a]); (0x105b3,[0x1058c]); (0x105b4,[0x1058d]); (0x105b5,[0x1058e]);
  (0x105b6,[0x1058f]); (0x105b7,[0x10590]); (0x105b8,[0x10591]); (0x105b9,[0x10592]);
  (0x105bb,[0x10594]); (0x105bc,[0x10595]); (0x10cc0,[0x10c80]); (0x10cc1,[0x10c81]);
  (0x10cc2,[0x10c82]); (0x10cc3,[0x10c83]); (0x10cc4,[0x10c84]); (0x10cc5,[0x10c85]);
  (0x10cc6,[0x10c86]); (0x10cc7,[0x10c87]); (0x10cc8,[0x10c88]); (0x10cc9,[0x10c89]);
  (0x10cca,[0x10c8a]); (0x10ccb,[0x10c8b]); (0x10ccc,[0x10c8c]); (0x10ccd,[0x10c8d]);
  (0x10cce,[0x10c8e]); (0x10ccf,[0x10c8f]); (0x10cd0,[0x10c90]); (0x10cd1,[0x10c91]);
  (0x10cd2,[0x10c92]); (0x10cd3,[0x10c93]); (0x10cd4,[0x10c94]); (0x10cd5,[0x10c95]);
  (0x10cd6,[0x10c96]); (0x10cd7,[0x10c97]); (0x10cd8,[0x10c98]); (0x10cd9,[0x10c99]);
  (0x10cda,[0x10c9a]); (0x10cdb,[0x10c9b]); (0x10cdc,[0x10c9c]); (0x10cdd,[0x10c9d]);
  (0x10cde,[0x10c9e]); (0x10cdf,[0x10c9f]); (0x10ce0,[0x10ca0]); (0x10ce1,[0x10ca1]);
  (0x10ce2,[0x10ca2]); (0x10ce3,[0x10ca3]); (0x10ce4,[0x10ca4]); (0x10ce5,[0x10ca5]);
  (0x10ce6,[0x10ca6]); (0x10ce7,[0x10ca7]); (0x10ce8,[0x10ca8]); (0x10ce9,[0x10ca9]);
  (0x10cea,[0x10caa]); (0x10ceb,[0x10cab]); (0x10cec,[0x10cac]); (0x10ced,[0x10cad]);
  (0x10cee,[0x10cae]); (0x10cef,[0x10caf]); (0x10cf0,[0x10cb0]); (0x10cf1,[0x10cb1]);
  (0x10cf2,[0x10cb2]); (0x118c0,[0x118a0]); (0x118c1,[0x118a1]); (0x118c2,[0x118a2]);
  (0x118c3,[0x118a3]); (0x118c4,[0x118a4]); (0x118c5,[0x118a5]); (0x118c6,[0x118a6]);
  (0x118c7,[0x118a7]); (0x118c8,[0x118a8]); (0x118c9,[0x118a9]); (0x118ca,[0x118aa]);
  (0x118cb,[0x118ab]); (0x118cc,[0x118ac]); (0x118cd,[0x118ad]); (0x118ce,[0x118ae]);
  (0x118cf,[0x118af]); (0x118d0,[0x118b0]); (0x118d1,[0x118b1]); (0x118d2,[0x118b2]);
  (0x118d3,[0x118b3]); (0x118d4,[0x118b4]); (0x118d5,[0x118b5]); (0x118d6,[0x118b6]);
  (0x118d7,[0x118b7]); (0x118d8,[0x118b8]); (0x118d9,[0x118b9]); (0x118da,[0x118ba]);
  (0x118db,[0x118bb]); (0x118dc,[0x118bc]); (0x118dd,[0x118bd]); (0x118de,[0x118be]);
  (0x118df,[0x118bf]); (0x16e60,[0x16e40]); (0x16e61,[0x16e41]); (0x16e62,[0x16e42]);
  (0x16e63,[0x16e43]); (0x16e64,[0x16e44]); (0x16e65,[0x16e45]); (0x16e66,[0x16e46]);
  (0x16e67,[0x16e47]); (0x16e68,[0x16e48]); (0x16e69,[0x16e49]); (0x16e6a,[0x16e4a]);
  (0x16e6b,[0x16e4b]); (0x16e6c,[0x16e4c]); (0x16e6d,[0x16e4d]); (0x16e6e,[0x16e4e]);
  (0x16e6f,[0x16e4f]); (0x16e70,[0x16e50]); (0x16e71,[0x16e51]); (0x16e72,[0x16e52]);
  (0x16e73,[0x16e53]); (0x16e74,[0x16e54]); (0x16e75,[0x16e55]); (0x16e76,[0x16e56]);
  (0x16e77,[0x16e57]); (0x16e78,[0x16e58]); (0x16e79,[0x16e59]); (0x16e7a,[0x16e5a]);
  (0x16e7b,[0x16e5b]); (0x16e7c,[0x16e5c]); (0x16e7d,[0x16e5d]); (0x16e7e,[0x16e5e]);
  (0x16e7f,[0x16e5f]); (0x1e922,[0x1e900]); (0x1e923,[0x1e901]); (0x1e924,[0x1e902]);
  (0x1e925,[0x1e903]); (0x1e926,[0x1e904]); (0x1e927,[0x1e905]); (0x1e928,[0x1e906]);
  (0x1e929,[0x1e907]); (0x1e92a,[0x1e908]); (0x1e92b,[0x1e909]); (0x1e92c,[0x1e90a]);
  (0x1e92d,[0x1e90b]); (0x1e92e,[0x1e90c]); (0x1e92f,[0x1e90d]); (0x1e930,[0x1e90e]);
  (0x1e931,[0x1e90f]); (0x1e932,[0x1e910]); (0x1e933,[0x1e911]); (0x1e934,[0x1e912]);
  (0x1e935,[0x1e913]); (0x1e936,[0x1e914]); (0x1e937,[0x1e915]); (0x1e938,[0x1e916]);
  (0x1e939,[0x1e917]); (0x1e93a,[0x1e918]); (0x1e93b,[0x1e919]); (0x1e93c,[0x1e91a]);
  (0x1e93d,[0x1e91b]); (0x1e93e,[0x1e91c]); (0x1e93f,[0x1e91d]); (0x1e940,[0x1e91e]);
  (0x1e941,[0x1e91f]); (0x1e942,[0x1e920]); (0x1e943,[0x1e921])
]%N.

Definition upper_table : gmap N (list N) := list_to_map upper_entries.

(** [ch.upper()] for a one-character string [ch]. *)
Definition upper (c : char) : str :=
  default [c] (upper_table !! c).

(** [text.upper()]: the mapping has no context rule, the result is the
    concatenation of the characters' uppercase forms. *)
Definition str_upper (s : str) : str := mjoin (upper <$> s).

(** ** Exceptions *)

Inductive exn :=
  | ValueError (msg : string)
  | IndexError
  | OverflowError (msg : string)
  | MemoryError
  | OSError (msg : string).

Inductive result (A : Type) :=
  | Ok (a : A)
  | Raise (e : exn).
Arguments Ok {A} a.
Arguments Raise {A} e.

Definition bind {A B} (m : result A) (k : A → result B) : result B :=
  match m with
  | Ok a => k a
  | Raise e => Raise e
  end.

Notation "x ←! m ; k" := (bind m (λ x, k))
  (at level 20, m at level 100, k at level 200, right associativity,
   format "'[v' x  ←!  m ; '/' k ']'").

(** A [for] loop whose body may raise: the state is threaded through the
    iterations, the first exception ends the loop. *)
Fixpoint for_each {A S} (xs : list A) (body : S → A → result S) (s : S)
  : result S :=
  match xs with
  | [] => Ok s
  | x :: xs' => s' ←! body s x; for_each xs' body s'
  end.

(** [range(n)] and [enumerate(l)]. *)
Definition range (n : Z) : list Z := seqZ 0 n.
Definition enumerate {A} (l : list A) : list (Z * A) :=
  zip (seqZ 0 (Z.of_nat (length l))) l.

(** The position that index [i] denotes in a list of length [len]: a
    negative index counts from the end, anything else is out of range. *)
Definition py_index (len : nat) (i : Z) : option nat :=
  if decide (0 ≤ i < Z.of_nat len) then Some (Z.to_nat i)
  else if decide (- Z.of_nat len ≤ i < 0)
       then Some (Z.to_nat (i + Z.of_nat len))
  else None.

(** [rows[i] += x] on a list of strings. *)
Definition iadd_item (rows : list str) (i : Z) (x : str) : result (list str) :=
  match py_index (length rows) i with
  | Some n => Ok (alter (λ r, r ++ x) n rows)
  | None => Raise IndexError
  end.

(** ** The font *)

Definition font_entries : list (str * list str) :=
  (λ e : string * list string, (lit e.1, lit <$> e.2)) <$> [
    ("A", ["01110";"10001";"10001";"11111";"10001";"10001";"10001"]);
    ("B", ["11110";"10001";"10001";"11110";"10001";"10001";"11110"]);
    ("C", ["01111";"10000";"10000";"10000";"10000";"10000";"01111"]);
    ("D", ["11110";"10001";"10001";"10001";"10001";"10001";"11110"]);
    ("E", ["11111";"10000";"10000";"11110";"10000";"10000";"11111"]);
    ("F", ["11111";"10000";"10000";"11110";"10000";"10000";"00000"]);
    ("G", ["01111";"10000";"10000";"10011";"10001";"10001";"01110"]);
    ("H", ["10001";"10001";"10001";"11111";"10001";"10001";"10001"]);
    ("I", ["01110";"00100";"00100";"00100";"00100";"00100";"01110"]);
    ("J", ["00111";"00010";"00010";"00010";"10010";"10010";"01100"]);
    ("K", ["10001";"10010";"10100";"11000";"10100";"10010";"10001"]);
    ("L", ["10000";"10000";"10000";"10000";"10000";"10000";"11111"]);
    ("M", ["10001";"11011";"10101";"10101";"10001";"10001";"10001"]);
    ("N", ["10001";"11001";"10101";"10011";"10001";"10001";"10001"]);
    ("O", ["01110";"10001";"10001";"10001";"10001";"10001";"01110"]);
    ("P", ["11110";"10001";"10001";"11110";"10000";"10000";"00000"]);
    ("Q", ["01110";"10001";"10001";"10001";"10101";"10010";"01101"]);
    ("R", ["11110";"10001";"10001";"11110";"10100";"10010";"10001"]);
    ("S", ["01111";"10000";"10000";"01110";"00001";"00001";"11110"]);
    ("T", ["11111";"00100";"00100";"00100";"00100";"00100";"00100"]);
    ("U", ["10001";"10001";"10001";"10001";"10001";"10001";"01110"]);
    ("V", ["10001";"10001";"10001";"10001";"10001";"01010";"00100"]);
    ("W", ["10001";"10001";"10001";"10101";"10101";"11011";"10001"]);
    ("X", ["10001";"10001";"01010";"00100";"01010";"10001";"10001"]);
    ("Y", ["10001";"10001";"01010";"00100";"00100";"00100";"00100"]);
    ("Z", ["11111";"00001";"00010";"00100";"01000";"10000";"11111"]);
    ("0", ["01110";"10001";"10011";"10101";"11001";"10001";"01110"]);
    ("1", ["00100";"01100";"00100";"00100";"00100";"00100";"01110"]);
    ("2", ["01110";"10001";"00001";"00010";"00100";"01000";"11111"]);
    ("3", ["01110";"10001";"00001";"00110";"00001";"10001";"01110"]);
    ("4", ["00010";"00110";"01010";"10010";"11111";"00010";"00010"]);
    ("5", ["11111";"10000";"10000";"11110";"00001";"10001";"01110"]);
    ("6", ["00110";"01000";"10000";"11110";"10001";"10001";"01110"]);
    ("7", ["11111";"00001";"00010";"00100";"01000";"01000";"01000"]);
    ("8", ["01110";"10001";"10001";"01110";"10001";"10001";"01110"]);
    ("9", ["01110";"10001";"10001";"01111";"00001";"00010";"01100"]);
    (" ", ["00000";"00000";"00000";"00000";"00000";"00000";"00000"]);
    (".", ["00000";"00000";"00000";"00000";"00000";"01100";"01100"]);
    (",", ["00000";"00000";"00000";"00000";"00000";"01100";"01000"]);
    ("!", ["00100";"00100";"00100";"00100";"00100";"00000";"00100"]);
    ("?", ["01110";"10001";"00001";"00010";"00100";"00000";"00100"]);
    ("-", ["00000";"00000";"00000";"11111";"00000";"00000";"00000"]);
    ("'", ["00100";"00100";"00000";"00000";"00000";"00000";"00000"]);
    (":", ["00000";"01100";"01100";"00000";"01100";"01100";"00000"])
  ]%string.

Definition FONT_5x7 : gmap str (list str) := list_to_map font_entries.

(** ** [render_text] *)

(** The placeholder for a character without a glyph:
    [bitmap = ["00000"] * 7; bitmap[3] = "00100"]. *)
Definition fallback_bitmap : list str :=
  <[3%nat := lit "00100"]> (replicate 7 (lit "00000")).

(** The bitmap that the loop body binds for [ch]:
    [FONT_5x7.get(ch.upper())], or the placeholder when that is [None]. *)
Definition bitmap_of (ch : char) : list str :=
  let key := upper ch in
  match FONT_5x7 !! key with
  | Some bitmap => bitmap
  | None => fallback_bitmap
  end.

(** The inner loop over the bits of one pattern:
    [out_row += (draw * scale) if bit == "1" else (" " * scale)]. *)
Definition expand_row (draw : str) (scale : Z) (row_pattern : str) : str :=
  foldl (λ out_row bit,
           out_row ++ (if decide (bit = ch_one) then str_mul draw scale
                       else str_mul [ch_space] scale))
        [] row_pattern.

(** The loop over [enumerate(bitmap)], with the loop over [range(scale)]
    inside it. *)
Definition render_bitmap (draw : str) (scale : Z) (sep : str)
    (bitmap : list str) (rows : list str) : result (list str) :=
  for_each (enumerate bitmap)
    (λ rows '(r_i, row_pattern),
       let out_row := expand_row draw scale row_pattern in
       for_each (range scale)
         (λ rows v, iadd_item rows (r_i * scale + v) (out_row ++ sep))
         rows)
    rows.

(** The accumulator [rows] after the loop over [text], before trimming. *)
Definition render_rows (text draw : str) (scale spacing : Z)
  : result (list str) :=
  let rows := replicate (Z.to_nat (7 * scale)) [] in
  let sep := str_mul [ch_space] spacing in
  for_each text
    (λ rows ch, render_bitmap draw scale sep (bitmap_of ch) rows)
    rows.

Definition render_text (text draw : str) (scale spacing : Z) : result str :=
  if decide (scale < 1) then Raise (ValueError "scale must be >= 1")
  else
    rows ←! render_rows text draw scale spacing;
    Ok (join [ch_newline] (rstrip <$> rows) ++ [ch_newline]).


(** ** Reference rows

    What one accumulator row holds, written as a function of the text: the
    expanded pattern of each character followed by the separator. *)

Definition glyph_row (draw : str) (scale : Z) (ch : char) (r : nat) : str :=
  expand_row draw scale (default [] (bitmap_of ch !! r)).

Definition text_row (draw : str) (scale spacing : Z) (text : str) (r : nat)
  : str :=
  mjoin ((λ ch, glyph_row draw scale ch r ++ str_mul [ch_space] spacing)
           <$> text).

(** One cell of the output: [draw * scale] for a set bit, blank otherwise. *)
Definition cell (draw : str) (scale : Z) (bit : char) : str :=
  if decide (bit = ch_one) then str_mul draw scale
  else str_mul [ch_space] scale.

(** A well-formed glyph: 7 rows of 5 cells, each ['0'] or ['1']. *)
Definition row_ok (row : str) : Prop :=
  length row = 5%nat ∧ Forall (λ c, c = ch_zero ∨ c = ch_one) row.
Definition glyph_ok (bitmap : list str) : Prop :=
  length bitmap = 7%nat ∧ Forall row_ok bitmap.

#[local] Instance row_ok_dec row : Decision (row_ok row).
Proof. unfold row_ok. apply _. Defined.
#[local] Instance glyph_ok_dec bitmap : Decision (glyph_ok bitmap).
Proof. unfold glyph_ok. apply _. Defined.

(** ** [render_text] on the interpreter

    A repetition [seq * n] first converts [n] to an index-sized integer
    and raises [OverflowError] when it does not fit, whatever its sign;
    a string repetition also refuses a result longer than the largest
    index.  Whether memory lasts is not decided by the arguments: it is
    an input, [oom], and the first allocation of the call is where it
    shows. *)

Definition PY_SSIZE_T_MAX : Z := 2 ^ 63 - 1.

Definition fits_index (n : Z) : Prop :=
  - PY_SSIZE_T_MAX - 1 ≤ n ≤ PY_SSIZE_T_MAX.

#[local] Instance fits_index_dec n : Decision (fits_index n).
Proof. unfold fits_index. apply _. Defined.

(** The count of a repetition as an index. *)
Definition as_index (n : Z) : result Z :=
  if decide (fits_index n) then Ok n
  else Raise (OverflowError "cannot fit 'int' into an index-sized integer").

(** [s * n] for a string [s]. *)
Definition str_repeat (s : str) (n : Z) : result str :=
  n ←! as_index n;
  if decide (n < 1) then Ok []
  else if decide (PY_SSIZE_T_MAX / n < Z.of_nat (length s))
       then Raise (OverflowError "repeated string is too long")
       else Ok (str_mul s n).

(** An allocation that fails when memory has run out. *)
Definition alloc {A} (oom : bool) (x : A) : result A :=
  if oom then Raise MemoryError else Ok x.

(** The loop over the bits of one pattern, lines 91 to 93. *)
Definition expand_row_rt (draw : str) (scale : Z) (row_pattern : str)
  : result str :=
  for_each row_pattern
    (λ out_row bit,
       cell ←! (if decide (bit = ch_one) then str_repeat draw scale
                else str_repeat [ch_space] scale);
       Ok (out_row ++ cell))
    [].

(** The loop over [enumerate(bitmap)], lines 90 to 95. *)
Definition render_bitmap_rt (draw : str) (scale : Z) (sep : str)
    (bitmap : list str) (rows : list str) : result (list str) :=
  for_each (enumerate bitmap)
    (λ rows '(r_i, row_pattern),
       out_row ←! expand_row_rt draw scale row_pattern;
       for_each (range scale)
         (λ rows v, iadd_item rows (r_i * scale + v) (out_row ++ sep))
         rows)
    rows.

Definition render_text_rt (oom : bool) (text draw : str)
    (scale spacing : Z) : result str :=
  if decide (scale < 1) then Raise (ValueError "scale must be >= 1")
  else
    n ←! as_index (7 * scale);
    rows ←! alloc oom (replicate (Z.to_nat n) ([] : str));
    sep ←! str_repeat [ch_space] spacing;
    rows ←! for_each text
              (λ rows ch,
                 render_bitmap_rt draw scale sep (bitmap_of ch) rows)
              rows;
    Ok (join [ch_newline] (rstrip <$> rows) ++ [ch_newline]).

(** ** [main]

    [parser.parse_args] is the library's: what it returns, or that it
    ends the program, is an input.  What the program does to the outside
    is recorded as a list of events and the way it ends.  Writing to the
    standard streams is taken to succeed; whether the output file can be
    written is up to the environment. *)

Definition SIZE_PRESETS : gmap str Z :=
  list_to_map [(lit "small", 1); (lit "medium", 2);
               (lit "large", 4); (lit "huge", 8)].

(** The values that [choices=SIZE_PRESETS.keys()] lets through. *)
Inductive size_name := small | medium | large | huge.

Definition size_key (size : size_name) : str :=
  match size with
  | small => lit "small"
  | medium => lit "medium"
  | large => lit "large"
  | huge => lit "huge"
  end.

(** The [Namespace] that [parser.parse_args] returns. *)
Record namespace := {
  arg_text : option str;
  arg_draw : str;
  arg_scale : option Z;
  arg_size : size_name;
  arg_spacing : Z;
  arg_output : option str;
  arg_stdin : bool
}.

(** What [parser.parse_args(argv)] does: it prints the help and exits
    with status 0 ([-h]), prints the usage and an error and exits with
    status 2, or returns the namespace. *)
Inductive parse_outcome :=
  | ParseHelp
  | ParseError
  | Parsed (args : namespace).

(** The environment of one run: whether memory runs out during the call
    of [render_text], and the exception, if any, that opening and writing
    the file [path] with [content] ends in. *)
Record environment := {
  env_oom : bool;
  env_write : str → str → option exn
}.

(** [FileWrite] is a write that has succeeded; one that fails leaves no
    event, whatever it has done to the file. *)
Inductive event :=
  | PrintHelp
  | PrintUsageError
  | Stdout (s : str)
  | Stderr (s : str)
  | FileWrite (path content : str).

(** How the program ends: [main] returns, [SystemExit] with a status, or
    an exception that nothing catches. *)
Inductive exit :=
  | Return
  | SysExit (code : Z)
  | Uncaught (e : exn).

(** [s.rstrip(chars)]: drop the trailing run of characters of [chars]. *)
Fixpoint rstrip_set (chars : str) (s : str) : str :=
  match s with
  | [] => []
  | c :: s' =>
      match rstrip_set chars s' with
      | [] => if bool_decide (c ∈ chars) then [] else [c]
      | t => c :: t
      end
  end.

(** [str(e)]. *)
Definition exn_str (e : exn) : str :=
  match e with
  | ValueError msg => lit msg
  | IndexError => lit "list index out of range"
  | OverflowError msg => lit msg
  | MemoryError => []
  | OSError msg => lit msg
  end.

(** [args.scale if args.scale is not None
     else SIZE_PRESETS.get(args.size, 4)]. *)
Definition resolve_scale (args : namespace) : Z :=
  match arg_scale args with
  | Some scale => scale
  | None => default 4 (SIZE_PRESETS !! size_key (arg_size args))
  end.

(** The text that [main] renders: standard input without its trailing
    line breaks under [--stdin], the positional argument otherwise. *)
Definition resolve_text (args : namespace) (stdin : str) : option str :=
  if arg_stdin args then Some (rstrip_set [ch_newline] stdin)
  else arg_text args.

(** [main] from line 110 on, for the namespace that [parse_args]
    returned. *)
Definition main (env : environment) (args : namespace) (stdin : str)
  : list event * exit :=
  match resolve_text args stdin with
  | None | Some [] => ([PrintHelp], Return)
  | Some text =>
      let scale := resolve_scale args in
      match render_text_rt (env_oom env) text (arg_draw args) scale
              (arg_spacing args) with
      | Raise e =>
          ([Stderr (lit "Error: " ++ exn_str e ++ [ch_newline])], SysExit 2)
      | Ok out =>
          match arg_output args with
          | Some (c :: path) =>
              match env_write env (c :: path) out with
              | Some e => ([], Uncaught e)
              | None =>
                  ([FileWrite (c :: path) out;
                    Stdout (lit "Wrote ASCII art to " ++ (c :: path)
                            ++ [ch_newline])],
                   Return)
              end
          | _ => ([Stdout (out ++ [ch_newline])], Return)
          end
      end
  end.

(** The whole of [main(argv)]. *)
Definition run_main (env : environment) (parse : parse_outcome)
    (stdin : str) : list event * exit :=
  match parse with
  | ParseHelp => ([PrintHelp], SysExit 0)
  | ParseError => ([PrintUsageError], SysExit 2)
  | Parsed args => main env args stdin
  end.

(** ** Auxiliary definitions for the proofs *)

(** [x] appended to the [k] rows from position [lo] on. *)
Definition bump (lo k : nat) (x : str) (rows : list str) : list str :=
  imap (λ i r, if decide (lo ≤ i < lo + k)%nat then r ++ x else r) rows.

(** What the rows [r0, r0+1, ...] of a bitmap add to accumulator row [i]. *)
Definition addend (draw : str) (scale : Z) (sep : str) (r0 : nat)
    (bitmap : list str) (i : nat) : str :=
  if decide (r0 * Z.to_nat scale ≤ i)%nat then
    match bitmap !! (i / Z.to_nat scale - r0)%nat with
    | Some p => expand_row draw scale p ++ sep
    | None => []
    end
  else [].

(** The reference accumulator of a text at a valid scale. *)
Definition reference_rows (text draw : str) (scale spacing : Z) : list str :=
  (λ i, text_row draw scale spacing text (i / Z.to_nat scale)%nat)
    <$> seq 0 (Z.to_nat (7 * scale)).

(** The check that a one-character uppercase form is not itself mapped. *)
Definition entry_fixed (e : N * list N) : bool :=
  match e.2 with
  | [u] => bool_decide (upper_table !! u = None)
  | _ => true
  end.

(** The check that a key of the font is one character, its own uppercase
    form. *)
Definition key_fixed (e : str * list str) : bool :=
  match e.1 with
  | [c] => bool_decide (upper c = [c])
  | _ => false
  end.

(** A bitmap row drawn with ['#'] for a set bit and a space otherwise. *)
Definition paint (row_pattern : str) : str :=
  (λ bit, if decide (bit = ch_one) then ch_hash else ch_space)
    <$> row_pattern.

(** On every accumulator row of a two-character text, the expanded rows of
    the two glyphs are [w] spaces apart. *)
Definition gap_between (c1 c2 : char) (draw : str) (scale spacing w : Z)
  : Prop :=
  ∃ rows : list str,
    render_rows [c1; c2] draw scale spacing = Ok rows
    ∧ length rows = Z.to_nat (7 * scale)
    ∧ ∀ i row, rows !! i = Some row →
        ∃ tail,
          row = glyph_row draw scale c1 (i / Z.to_nat scale)%nat
                ++ replicate (Z.to_nat w) ch_space
                ++ glyph_row draw scale c2 (i / Z.to_nat scale)%nat
                ++ tail.

(** The cell character of a bit under a one-character draw symbol. *)
Definition pixel (d : char) (bit : char) : char :=
  if decide (bit = ch_one) then d else ch_space.

(** The refusal of a cell [draw * scale] that would be too long. *)
Definition too_long (draw : str) (scale : Z) (e : exn) : Prop :=
  e = OverflowError "repeated string is too long"
  ∧ PY_SSIZE_T_MAX < Z.of_nat (length draw) * scale.

(** * Proofs *)

(** The tables are data: they are looked up, never unfolded by [simpl]. *)
Arguments upper_table : simpl never.
Arguments upper : simpl never.
Arguments FONT_5x7 : simpl never.
Arguments bitmap_of : simpl never.
Arguments render_bitmap : simpl never.
Arguments expand_row : simpl never.
Arguments str_mul : simpl never.

(** ** Strings *)

Section strings.
Implicit Types (s t : str) (c : char) (n : Z).

Lemma str_mul_nonpos s n : n ≤ 0 → str_mul s n = [].
Proof.
  intros Hn. unfold str_mul.
  replace (Z.to_nat n) with 0%nat by lia. done.
Qed.

Lemma length_str_mul_char c n : length (str_mul [c] n) = Z.to_nat n.
Proof.
  unfold str_mul. induction (Z.to_nat n) as [|k IH]; simpl; [done|].
  by rewrite IH.
Qed.

Lemma str_mul_char_replicate c n : str_mul [c] n = replicate (Z.to_nat n) c.
Proof.
  unfold str_mul. induction (Z.to_nat n) as [|k IH]; simpl; [done|].
  by rewrite IH.
Qed.

Lemma length_str_mul s n :
  length (str_mul s n) = (Z.to_nat n * length s)%nat.
Proof.
  unfold str_mul. induction (Z.to_nat n) as [|k IH]; simpl; [done|].
  rewrite length_app, IH. lia.
Qed.

Lemma rstrip_nil_iff s : rstrip s = [] ↔ Forall (λ c, isspace c = true) s.
Proof.
  induction s as [|c s IH]; simpl.
  - split; [constructor | done].
  - destruct (rstrip s) as [|d t] eqn:E.
    + destruct (isspace c) eqn:Ec.
      * split; [|done]. intros _. constructor; [done|]. by apply IH.
      * split; [done|]. intros H. inversion H; congruence.
    + split; [done|]. intros H. inversion H as [|? ? _ Hs]; subst.
      apply IH in Hs. done.
Qed.

Lemma rstrip_idemp s : rstrip (rstrip s) = rstrip s.
Proof.
  induction s as [|c s IH]; simpl; [done|].
  destruct (rstrip s) as [|d t] eqn:E.
  - destruct (isspace c) eqn:Ec; simpl; [done|]. by rewrite Ec.
  - change (rstrip (c :: d :: t))
      with (match rstrip (d :: t) with
            | [] => if isspace c then [] else [c]
            | u => c :: u
            end).
    by rewrite IH.
Qed.

(** Trimming removes a suffix of whitespace, and nothing else. *)
Lemma rstrip_split s :
  ∃ t, s = rstrip s ++ t ∧ Forall (λ c, isspace c = true) t.
Proof.
  induction s as [|c s (t & Hs & Ht)]; simpl.
  - by exists [].
  - destruct (rstrip s) as [|d u] eqn:E.
    + destruct (isspace c) eqn:Ec.
      * exists (c :: s). split; [done|].
        constructor; [done|]. simpl in Hs. by subst.
      * exists t. split; [|done]. simpl in *. by f_equal.
    + exists t. split; [|done]. rewrite Hs at 1. done.
Qed.

(** A trimmed string does not end in whitespace. *)
Lemma rstrip_last s c : last (rstrip s) = Some c → isspace c = false.
Proof.
  induction s as [|d s IH]; simpl; [done|].
  destruct (rstrip s) as [|e u] eqn:E.
  - destruct (isspace d) eqn:Ed; simpl; [done|]. congruence.
  - intros H. apply IH. by rewrite last_cons_cons in H.
Qed.

Lemma rstrip_app_nonspace s c :
  isspace c = false → rstrip (s ++ [c]) = s ++ [c].
Proof.
  intros Hc. induction s as [|d s IH]; simpl.
  - by rewrite Hc.
  - rewrite IH. by destruct s.
Qed.

Lemma length_rstrip s : (length (rstrip s) ≤ length s)%nat.
Proof.
  destruct (rstrip_split s) as (t & Hs & _).
  rewrite Hs at 2. rewrite length_app. lia.
Qed.

Lemma join_replicate_nil sep k :
  join sep (replicate (S k) []) = mjoin (replicate k sep).
Proof.
  induction k as [|k IH]; [done|].
  change (join sep (replicate (S (S k)) []))
    with ([] ++ sep ++ join sep (replicate (S k) [])).
  by rewrite IH.
Qed.

Lemma length_join sep parts :
  length (join sep parts ++ sep)
  = (sum_list (length <$> parts) + length parts * length sep)%nat
    ∨ parts = [].
Proof.
  induction parts as [|p ps IH]; [by right|left].
  destruct ps as [|q ps].
  - simpl. rewrite length_app. lia.
  - destruct IH as [IH|]; [|done].
    change (join sep (p :: q :: ps)) with (p ++ sep ++ join sep (q :: ps)).
    rewrite <- !app_assoc, (length_app p), (length_app sep), IH. simpl. lia.
Qed.
End strings.

(** ** The loops *)

Lemma for_each_app {A S} (xs ys : list A) (body : S → A → result S) s :
  for_each (xs ++ ys) body s = s' ←! for_each xs body s; for_each ys body s'.
Proof.
  revert s. induction xs as [|x xs IH]; intros s; simpl; [done|].
  destruct (body s x); simpl; [apply IH | done].
Qed.

Lemma iadd_item_in_range (rows : list str) (i : nat) x :
  (i < length rows)%nat →
  iadd_item rows (Z.of_nat i) x = Ok (alter (λ r, r ++ x) i rows).
Proof.
  intros Hi. unfold iadd_item, py_index.
  rewrite decide_True by lia. by rewrite Nat2Z.id.
Qed.

(** The loop over [range(scale)], started at any [a]. *)
Lemma inner_loop (k : nat) : ∀ (a base : nat) (x : str) (rows : list str),
  (base + a + k ≤ length rows)%nat →
  for_each (seqZ (Z.of_nat a) (Z.of_nat k))
    (λ rows v, iadd_item rows (Z.of_nat base + v) x) rows
  = Ok (bump (base + a) k x rows).
Proof.
  induction k as [|k IH]; intros a base x rows Hlen.
  - simpl. f_equal. unfold bump. apply list_eq; intros i.
    rewrite list_lookup_imap. destruct (rows !! i); simpl; [|done].
    by rewrite decide_False by lia.
  - rewrite seqZ_cons by lia. simpl.
    replace (Z.of_nat base + Z.of_nat a) with (Z.of_nat (base + a)) by lia.
    rewrite iadd_item_in_range by lia. simpl.
    replace (Z.succ (Z.of_nat a)) with (Z.of_nat (S a)) by lia.
    replace (Z.pred (Z.of_nat (S k))) with (Z.of_nat k) by lia.
    rewrite IH by (rewrite length_alter; lia).
    f_equal. unfold bump. apply list_eq; intros i.
    rewrite !list_lookup_imap, list_lookup_alter.
    destruct (decide (base + a = i)%nat) as [<-|Hne];
      (destruct (rows !! _); simpl; [|done]);
      repeat case_decide; (done || lia).
Qed.

Lemma for_each_ext {A S} (xs : list A) (f g : S → A → result S) s :
  (∀ s x, f s x = g s x) → for_each xs f s = for_each xs g s.
Proof.
  intros Hfg. revert s. induction xs as [|x xs IH]; intros s; simpl; [done|].
  rewrite Hfg. destruct (g s x); simpl; [apply IH | done].
Qed.

(** The loop over [range(scale)] for bitmap row [r_i]. *)
Lemma inner_range (scale : Z) (r_i : nat) (x : str) (rows : list str) :
  (r_i * Z.to_nat scale + Z.to_nat scale ≤ length rows)%nat →
  for_each (range scale)
    (λ rows v, iadd_item rows (Z.of_nat r_i * scale + v) x) rows
  = Ok (bump (r_i * Z.to_nat scale) (Z.to_nat scale) x rows).
Proof.
  intros Hlen. unfold range.
  destruct (decide (scale ≤ 0)) as [Hs|Hs].
  - replace (Z.to_nat scale) with 0%nat in * by lia.
    rewrite seqZ_nil by done. simpl. f_equal. unfold bump.
    apply list_eq; intros i. rewrite list_lookup_imap.
    destruct (rows !! i); simpl; [|done]. by rewrite decide_False by lia.
  - rewrite (for_each_ext _ _ (λ rows v,
      iadd_item rows (Z.of_nat (r_i * Z.to_nat scale) + v) x))
      by (intros; f_equal; nia).
    replace scale with (Z.of_nat (Z.to_nat scale)) at 1 by lia.
    rewrite (inner_loop (Z.to_nat scale) 0 (r_i * Z.to_nat scale)) by lia.
    by rewrite Nat.add_0_r.
Qed.

Section render_bitmap.
Context (draw : str) (scale : Z) (sep : str).
Context (Hscale : 1 ≤ scale).

Lemma outer_loop (bitmap : list str) : ∀ (r0 : nat) (rows : list str),
  ((r0 + length bitmap) * Z.to_nat scale ≤ length rows)%nat →
  for_each (zip (seqZ (Z.of_nat r0) (Z.of_nat (length bitmap))) bitmap)
    (λ rows '(r_i, row_pattern),
       for_each (range scale)
         (λ rows v,
            iadd_item rows (r_i * scale + v)
              (expand_row draw scale row_pattern ++ sep))
         rows)
    rows
  = Ok (imap (λ i r, r ++ addend draw scale sep r0 bitmap i) rows).
Proof.
  set (n := Z.to_nat scale).
  assert (Hn : (1 ≤ n)%nat) by (unfold n; lia).
  induction bitmap as [|p bm IH]; intros r0 rows Hlen.
  - simpl. f_equal. apply list_eq; intros i. rewrite list_lookup_imap.
    destruct (rows !! i); simpl; [|done]. unfold addend.
    rewrite lookup_nil. destruct (decide _); by rewrite app_nil_r.
  - simpl length in *. rewrite seqZ_cons by lia. simpl.
    rewrite inner_range by (fold n; nia). simpl. fold n.
    replace (Z.succ (Z.of_nat r0)) with (Z.of_nat (S r0)) by lia.
    replace (Z.pred (Z.of_nat (S (length bm)))) with (Z.of_nat (length bm))
      by lia.
    rewrite IH by (unfold bump; rewrite length_imap; nia).
    f_equal. unfold bump. apply list_eq; intros i.
    rewrite !list_lookup_imap. destruct (rows !! i) as [r|]; simpl; [|done].
    f_equal. unfold addend. fold n.
    destruct (decide (S r0 * n ≤ i)%nat) as [Hge|Hlt].
    + rewrite decide_False by nia. rewrite decide_True by nia.
      assert (S r0 ≤ i / n)%nat by (apply Nat.div_le_lower_bound; lia).
      replace (i / n - r0)%nat with (S (i / n - S r0)) by lia. done.
    + destruct (decide (r0 * n ≤ i)%nat) as [Hge'|Hlt'].
      * rewrite decide_True by nia.
        assert (i / n = r0)%nat as ->.
        { symmetry. apply Nat.div_unique with (i - r0 * n)%nat; nia. }
        rewrite Nat.sub_diag. simpl. by rewrite app_nil_r.
      * rewrite decide_False by nia. by rewrite !app_nil_r.
Qed.
End render_bitmap.

(** ** The font table *)

Lemma font_entries_ok : Forall (λ e, glyph_ok e.2) font_entries.
Proof. apply (bool_decide_unpack _). by vm_compute. Qed.

Lemma FONT_5x7_ok key bitmap :
  FONT_5x7 !! key = Some bitmap → glyph_ok bitmap.
Proof.
  intros H. apply elem_of_list_to_map_2 in H.
  by apply (proj1 (Forall_forall _ _) font_entries_ok (key, bitmap)).
Qed.

Lemma fallback_bitmap_ok : glyph_ok fallback_bitmap.
Proof. apply (bool_decide_unpack _). by vm_compute. Qed.

Lemma bitmap_of_ok ch : glyph_ok (bitmap_of ch).
Proof.
  unfold bitmap_of. destruct (FONT_5x7 !! upper ch) eqn:E.
  - by eapply FONT_5x7_ok.
  - apply fallback_bitmap_ok.
Qed.

Lemma length_bitmap_of ch : length (bitmap_of ch) = 7%nat.
Proof. apply bitmap_of_ok. Qed.

(** ** One character, then the whole text *)

Section accumulate.
Context (draw : str) (scale spacing : Z).
Context (Hscale : 1 ≤ scale).

Lemma render_bitmap_spec (sep : str) (bitmap rows : list str) :
  length bitmap = 7%nat →
  length rows = Z.to_nat (7 * scale) →
  render_bitmap draw scale sep bitmap rows
  = Ok (imap (λ i r,
          r ++ expand_row draw scale
                 (default [] (bitmap !! (i / Z.to_nat scale)%nat)) ++ sep)
        rows).
Proof.
  intros Hb Hr. unfold render_bitmap, enumerate.
  pose proof (outer_loop draw scale sep Hscale bitmap 0 rows) as Hloop.
  change (Z.of_nat 0) with 0 in Hloop. rewrite Hloop by lia. clear Hloop.
  f_equal. apply list_eq; intros i. rewrite !list_lookup_imap.
  destruct (rows !! i) as [r|] eqn:Ei; simpl; [|done].
  apply lookup_lt_Some in Ei. f_equal. f_equal.
  unfold addend. rewrite decide_True by lia. rewrite Nat.sub_0_r.
  assert (i / Z.to_nat scale < 7)%nat as Hlt
    by (apply Nat.Div0.div_lt_upper_bound; lia).
  rewrite <- Hb in Hlt. apply lookup_lt_is_Some in Hlt as [p ->]. done.
Qed.

Lemma render_loop_spec (text : str) : ∀ rows : list str,
  length rows = Z.to_nat (7 * scale) →
  for_each text
    (λ rows ch,
       render_bitmap draw scale (str_mul [ch_space] spacing)
         (bitmap_of ch) rows)
    rows
  = Ok (imap (λ i r,
          r ++ text_row draw scale spacing text (i / Z.to_nat scale)%nat)
        rows).
Proof.
  induction text as [|ch text IH]; intros rows Hr.
  - cbn [for_each]. f_equal. apply list_eq; intros i.
    rewrite list_lookup_imap.
    destruct (rows !! i); cbn [fmap option_fmap option_map]; [|done].
    unfold text_row. cbn [fmap list_fmap mjoin list_join].
    by rewrite app_nil_r.
  - cbn [for_each].
    rewrite render_bitmap_spec; [|apply length_bitmap_of|exact Hr].
    cbn [bind]. rewrite IH by (by rewrite length_imap).
    f_equal. apply list_eq; intros i. rewrite !list_lookup_imap.
    destruct (rows !! i); cbn [fmap option_fmap option_map]; [|done].
    f_equal. unfold text_row, glyph_row.
    cbn [fmap list_fmap mjoin list_join].
    by rewrite <- !app_assoc.
Qed.

(** The accumulator before trimming: row [i] is the reference row of
    bitmap row [i / scale]. *)
Lemma render_rows_spec (text : str) :
  render_rows text draw scale spacing
  = Ok ((λ i, text_row draw scale spacing text (i / Z.to_nat scale)%nat)
          <$> seq 0 (Z.to_nat (7 * scale))).
Proof.
  unfold render_rows. rewrite render_loop_spec by apply length_replicate.
  f_equal. apply list_eq; intros i.
  rewrite list_lookup_imap, list_lookup_fmap.
  destruct (decide (i < Z.to_nat (7 * scale))%nat) as [Hi|Hi].
  - rewrite lookup_replicate_2 by done. by rewrite lookup_seq_lt by done.
  - rewrite (proj1 (lookup_replicate_None _ _ _)) by lia.
    by rewrite lookup_seq_ge by lia.
Qed.
End accumulate.

(** ** The rendered string *)

Lemma expand_row_cells (draw : str) (scale : Z) (row_pattern : str) :
  expand_row draw scale row_pattern = mjoin (cell draw scale <$> row_pattern).
Proof.
  unfold expand_row.
  enough (∀ acc,
    foldl (λ out_row bit,
             out_row ++ (if decide (bit = ch_one) then str_mul draw scale
                         else str_mul [ch_space] scale))
          acc row_pattern
    = acc ++ mjoin (cell draw scale <$> row_pattern)) as H by apply H.
  induction row_pattern as [|bit p IH]; intros acc.
  - cbn. by rewrite app_nil_r.
  - cbn [foldl fmap list_fmap mjoin list_join]. rewrite IH.
    by rewrite <- app_assoc.
Qed.

Lemma render_text_spec (text draw : str) (scale spacing : Z) :
  1 ≤ scale →
  render_text text draw scale spacing
  = Ok (join [ch_newline] (rstrip <$> reference_rows text draw scale spacing)
          ++ [ch_newline]).
Proof.
  intros Hscale. unfold render_text. rewrite decide_False by lia.
  by rewrite render_rows_spec.
Qed.

Lemma length_reference_rows text draw scale spacing :
  length (reference_rows text draw scale spacing) = Z.to_nat (7 * scale).
Proof. unfold reference_rows. by rewrite length_fmap, length_seq. Qed.

(** Only the draw symbol and blanks reach the output. *)
Lemma Forall_mjoin {A} (P : A → Prop) (ls : list (list A)) :
  Forall (Forall P) ls → Forall P (mjoin ls).
Proof.
  induction 1 as [|l ls Hl _ IH]; cbn [mjoin list_join]; [constructor|].
  by apply Forall_app.
Qed.

Lemma str_mul_chars (P : char → Prop) (s : str) (n : Z) :
  Forall P s → Forall P (str_mul s n).
Proof.
  intros Hs. unfold str_mul. apply Forall_mjoin.
  by apply Forall_replicate.
Qed.

Lemma text_row_chars (draw : str) scale spacing (text : str) r :
  Forall (λ c, c ∈ draw ∨ c = ch_space)
    (text_row draw scale spacing text r).
Proof.
  unfold text_row. apply Forall_mjoin, Forall_fmap, Forall_forall.
  intros ch _. cbn. apply Forall_app. split.
  - unfold glyph_row. rewrite expand_row_cells.
    apply Forall_mjoin, Forall_fmap, Forall_forall. intros bit _. cbn.
    unfold cell. case_decide; apply str_mul_chars.
    + apply Forall_forall. by left.
    + apply Forall_singleton. by right.
  - apply str_mul_chars, Forall_singleton. by right.
Qed.

Lemma rstrip_chars (P : char → Prop) (s : str) :
  Forall P s → Forall P (rstrip s).
Proof.
  intros Hs. destruct (rstrip_split s) as (t & Heq & _).
  rewrite Heq in Hs. by apply Forall_app in Hs as [? _].
Qed.

(** The loop body on an accumulator of [7 * scale] rows. *)
Lemma render_bitmap_rows (ch : char) (draw : str) (scale spacing : Z)
    (rows : list str) :
  1 ≤ scale →
  length rows = Z.to_nat (7 * scale) →
  ∃ rows',
    render_bitmap draw scale (str_mul [ch_space] spacing) (bitmap_of ch) rows
      = Ok rows'
    ∧ length rows' = length rows
    ∧ ∀ r v, 0 ≤ r < 7 → 0 ≤ v < scale →
        ∃ b0 b1 b2 b3 b4 old,
          bitmap_of ch !! Z.to_nat r = Some [b0; b1; b2; b3; b4]
          ∧ rows !! Z.to_nat (r * scale + v) = Some old
          ∧ rows' !! Z.to_nat (r * scale + v)
            = Some (old
                    ++ (cell draw scale b0 ++ cell draw scale b1
                        ++ cell draw scale b2 ++ cell draw scale b3
                        ++ cell draw scale b4)
                    ++ replicate (Z.to_nat spacing) ch_space).
Proof.
  intros Hscale Hlen. eexists. split; [|split].
  - by apply render_bitmap_spec; [|apply length_bitmap_of|].
  - apply length_imap.
  - intros r v Hr Hv.
    set (i := Z.to_nat (r * scale + v)).
    assert (i = (Z.to_nat r * Z.to_nat scale + Z.to_nat v)%nat) as Hi
      by (unfold i; nia).
    assert (i / Z.to_nat scale = Z.to_nat r)%nat as Hdiv.
    { symmetry. apply Nat.div_unique with (Z.to_nat v); lia. }
    destruct (bitmap_of_ok ch) as [Hb7 Hrows].
    destruct (lookup_lt_is_Some_2 (bitmap_of ch) (Z.to_nat r)) as [p Hp];
      [lia|].
    destruct (proj1 (Forall_forall _ _) Hrows p) as [Hp5 _];
      [by eapply list_elem_of_lookup_2|].
    destruct p as [|b0 [|b1 [|b2 [|b3 [|b4 [|]]]]]]; try (cbn in Hp5; lia).
    destruct (lookup_lt_is_Some_2 rows i) as [old Hold]; [nia|].
    exists b0, b1, b2, b3, b4, old. split; [done|]. split; [done|].
    rewrite list_lookup_imap, Hold, Hdiv, Hp. cbn.
    rewrite expand_row_cells, str_mul_char_replicate. cbn.
    by rewrite app_nil_r, <- !app_assoc.
Qed.

(** * The specification's claims *)

(** C1: for every text processed so far and every next character, at a
    valid scale the accumulator has [7 * scale] rows and processing the
    character succeeds; for each bitmap row [r] (0 to 6) and each [v] below
    [scale] it appends to accumulator row [r * scale + v] the five cells of
    that bitmap row in column order, a set bit giving the draw symbol
    [scale] times and an unset bit [scale] spaces, followed by [spacing]
    spaces. *)
Theorem C1_glyph_rows_appended (text : str) (ch : char) (draw : str)
    (scale spacing : Z) :
  1 ≤ scale →
  ∃ rows rows' : list str,
    render_rows text draw scale spacing = Ok rows
    ∧ length rows = Z.to_nat (7 * scale)
    ∧ render_rows (text ++ [ch]) draw scale spacing = Ok rows'
    ∧ length rows' = Z.to_nat (7 * scale)
    ∧ ∀ r v, 0 ≤ r < 7 → 0 ≤ v < scale →
        ∃ b0 b1 b2 b3 b4 old,
          bitmap_of ch !! Z.to_nat r = Some [b0; b1; b2; b3; b4]
          ∧ rows !! Z.to_nat (r * scale + v) = Some old
          ∧ rows' !! Z.to_nat (r * scale + v)
            = Some (old
                    ++ (cell draw scale b0 ++ cell draw scale b1
                        ++ cell draw scale b2 ++ cell draw scale b3
                        ++ cell draw scale b4)
                    ++ replicate (Z.to_nat spacing) ch_space).
Proof.
  intros Hscale.
  pose proof (render_rows_spec draw scale spacing Hscale text) as Hrows.
  pose proof (length_reference_rows text draw scale spacing) as Hlen.
  fold (reference_rows text draw scale spacing) in Hrows.
  destruct (render_bitmap_rows ch draw scale spacing _ Hscale Hlen)
    as (rows' & Hstep & Hlen' & Hcells).
  exists (reference_rows text draw scale spacing), rows'.
  split; [done|]. split; [done|]. split; [|split; [congruence | done]].
  unfold render_rows in *. rewrite for_each_app, Hrows. cbn [bind for_each].
  rewrite Hstep. done.
Qed.

Lemma C1_glyph_rows_appended_witness :
  ∃ rows rows' : list str,
    render_rows (lit "H") (lit "#") 2 1 = Ok rows
    ∧ length rows = Z.to_nat (7 * 2)
    ∧ render_rows (lit "H" ++ [65%N]) (lit "#") 2 1 = Ok rows'
    ∧ length rows' = Z.to_nat (7 * 2)
    ∧ ∀ r v, 0 ≤ r < 7 → 0 ≤ v < 2 →
        ∃ b0 b1 b2 b3 b4 old,
          bitmap_of 65%N !! Z.to_nat r = Some [b0; b1; b2; b3; b4]
          ∧ rows !! Z.to_nat (r * 2 + v) = Some old
          ∧ rows' !! Z.to_nat (r * 2 + v)
            = Some (old
                    ++ (cell (lit "#") 2 b0 ++ cell (lit "#") 2 b1
                        ++ cell (lit "#") 2 b2 ++ cell (lit "#") 2 b3
                        ++ cell (lit "#") 2 b4)
                    ++ replicate (Z.to_nat 1) ch_space).
Proof.
  apply (C1_glyph_rows_appended (lit "H") 65%N (lit "#") 2 1). lia.
Defined.

(** C2: at a valid scale the result is [7 * scale] rows joined by single
    line breaks and followed by one line break; every row is trimmed, so
    trimming it again changes nothing and it does not end in whitespace.
    When the draw symbol has no line break, no row has one either, so the
    rows are exactly the lines of the result. *)
Theorem C2_output_rows (text draw : str) (scale spacing : Z) :
  1 ≤ scale →
  ∃ rows : list str,
    render_text text draw scale spacing
      = Ok (join [ch_newline] rows ++ [ch_newline])
    ∧ length rows = Z.to_nat (7 * scale)
    ∧ Forall (λ r, rstrip r = r) rows
    ∧ Forall (λ r, ∀ c, last r = Some c → isspace c = false) rows
    ∧ (ch_newline ∉ draw → Forall (λ r, ch_newline ∉ r) rows).
Proof.
  intros Hscale.
  exists (rstrip <$> reference_rows text draw scale spacing).
  split; [by apply render_text_spec|].
  split; [by rewrite length_fmap, length_reference_rows|].
  split; [|split].
  - apply Forall_fmap, Forall_forall. intros r _. apply rstrip_idemp.
  - apply Forall_fmap, Forall_forall. intros r _ c. apply rstrip_last.
  - intros Hdraw. apply Forall_fmap, Forall_fmap, Forall_forall.
    intros i _. cbn. intros Hin.
    pose proof (rstrip_chars _ _
      (text_row_chars draw scale spacing text (i / Z.to_nat scale)%nat))
      as Hchars.
    apply (proj1 (Forall_forall _ _) Hchars) in Hin as [Hin|Hin]; [done|].
    discriminate Hin.
Qed.

Lemma C2_output_rows_witness :
  ∃ rows : list str,
    render_text (lit "Hi") (lit "#") 2 1
      = Ok (join [ch_newline] rows ++ [ch_newline])
    ∧ length rows = Z.to_nat (7 * 2)
    ∧ Forall (λ r, rstrip r = r) rows
    ∧ Forall (λ r, ∀ c, last r = Some c → isspace c = false) rows
    ∧ (ch_newline ∉ lit "#" → Forall (λ r, ch_newline ∉ r) rows).
Proof. apply (C2_output_rows (lit "Hi") (lit "#") 2 1). lia. Defined.

(** C3: [render_text] raises exactly when [scale < 1], and what it raises is
    the [ValueError] of the scale check; at every [scale >= 1] it returns a
    string.  In particular it raises at scales 0, -1 and -100. *)
Theorem C3_scale_check (text draw : str) (scale spacing : Z) :
  (render_text text draw scale spacing
     = Raise (ValueError "scale must be >= 1") ↔ scale < 1)
  ∧ ((∃ e, render_text text draw scale spacing = Raise e) ↔ scale < 1)
  ∧ ((∃ out, render_text text draw scale spacing = Ok out) ↔ 1 ≤ scale)
  ∧ render_text text draw 0 spacing = Raise (ValueError "scale must be >= 1")
  ∧ render_text text draw (-1) spacing
      = Raise (ValueError "scale must be >= 1")
  ∧ render_text text draw (-100) spacing
      = Raise (ValueError "scale must be >= 1").
Proof.
  assert (∀ s, s < 1 →
    render_text text draw s spacing = Raise (ValueError "scale must be >= 1"))
    as Hbad.
  { intros s Hs. unfold render_text. by rewrite decide_True by done. }
  assert (∀ s, 1 ≤ s → ∃ out, render_text text draw s spacing = Ok out)
    as Hgood.
  { intros s Hs. rewrite render_text_spec by done. by eexists. }
  repeat split; try (apply Hbad; lia); try (apply Hgood).
  - intros Heq. destruct (decide (scale < 1)) as [|Hge]; [done|].
    destruct (Hgood scale) as [out Hout]; [lia|]. congruence.
  - intros [e Heq]. destruct (decide (scale < 1)) as [|Hge]; [done|].
    destruct (Hgood scale) as [out Hout]; [lia|]. congruence.
  - intros Hlt. eexists. by apply Hbad.
  - intros [out Heq]. destruct (decide (1 ≤ scale)) as [|Hlt]; [done|].
    rewrite Hbad in Heq by lia. discriminate.
Qed.

(** C8: at a valid scale the empty text leaves every one of the
    [7 * scale] accumulator rows empty, trimmed or not, and the result is
    [7 * scale] line breaks and nothing else. *)
Theorem C8_empty_text (draw : str) (scale spacing : Z) :
  1 ≤ scale →
  render_rows [] draw scale spacing = Ok (replicate (Z.to_nat (7 * scale)) [])
  ∧ rstrip <$> replicate (Z.to_nat (7 * scale)) ([] : str)
    = replicate (Z.to_nat (7 * scale)) []
  ∧ render_text [] draw scale spacing
    = Ok (replicate (Z.to_nat (7 * scale)) ch_newline).
Proof.
  intros Hscale. split; [done|]. split; [by rewrite fmap_replicate|].
  unfold render_text. rewrite decide_False by lia.
  unfold render_rows. cbn [for_each bind]. f_equal.
  rewrite fmap_replicate. cbn [rstrip].
  destruct (Z.to_nat (7 * scale)) as [|k] eqn:Ek; [lia|].
  rewrite join_replicate_nil, replicate_S_end. f_equal.
  rewrite <- (Nat2Z.id k) at 2. rewrite <- str_mul_char_replicate.
  unfold str_mul. by rewrite Nat2Z.id.
Qed.

Lemma C8_empty_text_witness :
  render_rows [] (lit "#") 3 1 = Ok (replicate (Z.to_nat (7 * 3)) [])
  ∧ rstrip <$> replicate (Z.to_nat (7 * 3)) ([] : str)
    = replicate (Z.to_nat (7 * 3)) []
  ∧ render_text [] (lit "#") 3 1
    = Ok (replicate (Z.to_nat (7 * 3)) ch_newline).
Proof. apply (C8_empty_text (lit "#") 3 1). lia. Defined.

(** C9: every entry of [FONT_5x7] has exactly 7 rows of exactly 5 cells,
    each cell ['0'] or ['1'], and so has the placeholder bitmap. *)
Theorem C9_glyphs_are_7x5 :
  map_Forall (λ _ bitmap, glyph_ok bitmap) FONT_5x7
  ∧ glyph_ok fallback_bitmap.
Proof.
  split.
  - intros key bitmap. apply FONT_5x7_ok.
  - apply fallback_bitmap_ok.
Qed.

(** ** Facts about [str.upper] *)

(** A one-character uppercase form is its own uppercase form. *)
Lemma upper_entries_fixed : Forall (λ e, entry_fixed e = true) upper_entries.
Proof. apply (bool_decide_unpack _). by vm_compute. Qed.

Lemma upper_single_fixed (c u : char) : upper c = [u] → upper u = [u].
Proof.
  unfold upper. destruct (upper_table !! c) as [s|] eqn:E; cbn.
  - intros ->. apply elem_of_list_to_map_2 in E.
    pose proof (proj1 (Forall_forall _ _) upper_entries_fixed _ E) as Hu.
    unfold entry_fixed in Hu. cbn in Hu. apply bool_decide_eq_true in Hu.
    by rewrite Hu.
  - intros [= <-]. by rewrite E.
Qed.

Lemma bitmap_of_upper (c u : char) :
  upper c = [u] → bitmap_of u = bitmap_of c.
Proof.
  intros Hc. unfold bitmap_of. by rewrite (upper_single_fixed c u Hc), Hc.
Qed.

(** The keys of the font are their own uppercase form. *)
Lemma font_keys_upper : Forall (λ e, key_fixed e = true) font_entries.
Proof. apply (bool_decide_unpack _). by vm_compute. Qed.

Lemma FONT_5x7_key_upper (c : char) (bitmap : list str) :
  FONT_5x7 !! [c] = Some bitmap → upper c = [c].
Proof.
  intros H. apply elem_of_list_to_map_2 in H.
  pose proof (proj1 (Forall_forall _ _) font_keys_upper _ H) as Hk.
  unfold key_fixed in Hk. cbn in Hk. by apply bool_decide_eq_true in Hk.
Qed.

(** On ASCII, [upper] maps [a-z] to [A-Z] and fixes everything else. *)
Lemma upper_ascii (c : char) :
  (c < 128)%N →
  upper c = [if decide (97 ≤ c ≤ 122)%N then (c - 32)%N else c].
Proof.
  intros Hc.
  assert (Forall (λ k : nat,
            upper (N.of_nat k)
            = [if decide (97 ≤ N.of_nat k ≤ 122)%N then (N.of_nat k - 32)%N
               else N.of_nat k]) (seq 0 128)) as Hall
    by (apply (bool_decide_unpack _); by vm_compute).
  rewrite <- (N2Nat.id c).
  apply (proj1 (Forall_forall _ _) Hall), elem_of_seq. lia.
Qed.

(** The placeholder has its only set cell at row 3, column 2. *)
Lemma fallback_bitmap_cell (r col : nat) :
  (∃ p, fallback_bitmap !! r = Some p ∧ p !! col = Some ch_one)
  ↔ r = 3%nat ∧ col = 2%nat.
Proof.
  split.
  - intros (p & Hp & Hc).
    change fallback_bitmap
      with (lit <$> ["00000"; "00000"; "00000"; "00100";
                     "00000"; "00000"; "00000"]%string) in Hp.
    do 7 (destruct r as [|r];
          [injection Hp as <-;
           do 5 (destruct col as [|col]; [by inversion Hc|]);
           by inversion Hc|]).
    by inversion Hp.
  - intros [-> ->]. eexists. split; reflexivity.
Qed.

(** ** Case *)

Lemma render_loop_upper (draw : str) (scale : Z) (sep : str) (text : str) :
  Forall (λ c, length (upper c) = 1%nat) text →
  ∀ rows,
    for_each text
      (λ rows ch, render_bitmap draw scale sep (bitmap_of ch) rows) rows
    = for_each (str_upper text)
        (λ rows ch, render_bitmap draw scale sep (bitmap_of ch) rows) rows.
Proof.
  induction 1 as [|c text Hc _ IH]; intros rows; [done|].
  destruct (upper c) as [|u [|]] eqn:Eu; try discriminate Hc.
  unfold str_upper. cbn [fmap list_fmap mjoin list_join]. rewrite Eu.
  cbn [app for_each]. rewrite (bitmap_of_upper c u Eu).
  destruct (render_bitmap _ _ _ _ _); cbn [bind]; [apply IH | done].
Qed.

(** C5 fails as stated: the uppercase form of U+00DF is the two characters
    "SS".  The text U+00DF is drawn as one placeholder, its uppercase form
    as two glyphs "S". *)
Lemma C5_sharp_s_counterexample :
  upper 0xdf%N = lit "SS"
  ∧ render_text [0xdf%N] (lit "#") 1 1
    ≠ render_text (str_upper [0xdf%N]) (lit "#") 1 1.
Proof. split; [by vm_compute|]. vm_compute. discriminate. Qed.

(** C5, amended: for every text in which each character has a
    one-character uppercase form (every ASCII text is one), rendering the
    text and rendering its uppercase form give the same result. *)
Theorem C5_case_insensitive (text draw : str) (scale spacing : Z) :
  Forall (λ c, length (upper c) = 1%nat) text →
  render_text text draw scale spacing
  = render_text (str_upper text) draw scale spacing.
Proof.
  intros Hsingle. unfold render_text, render_rows.
  by rewrite (render_loop_upper _ _ _ _ Hsingle).
Qed.

Lemma C5_case_insensitive_witness :
  render_text (lit "a") (lit "#") 1 1
  = render_text (str_upper (lit "a")) (lit "#") 1 1.
Proof.
  apply (C5_case_insensitive (lit "a") (lit "#") 1 1).
  apply (bool_decide_unpack _). vm_compute. exact I.
Defined.

(** Every ASCII text meets the condition of C5. *)
Lemma ascii_text_single_upper (text : str) :
  Forall (λ c, (c < 128)%N) text →
  Forall (λ c, length (upper c) = 1%nat) text.
Proof.
  intros H. eapply Forall_impl; [exact H|]. intros c Hc. by rewrite upper_ascii.
Qed.

(** ** One glyph at scale 1 *)

Lemma expand_row_hash (row_pattern : str) :
  expand_row (lit "#") 1 row_pattern = paint row_pattern.
Proof.
  rewrite expand_row_cells.
  induction row_pattern as [|bit p IH]; [done|].
  change (cell (lit "#") 1 bit ++ mjoin (cell (lit "#") 1 <$> p)
          = (if decide (bit = ch_one) then ch_hash else ch_space) :: paint p).
  rewrite IH. unfold cell. by case_decide.
Qed.

Lemma reference_rows_single (c : char) :
  reference_rows [c] (lit "#") 1 0 = paint <$> bitmap_of c.
Proof.
  unfold reference_rows.
  change (Z.to_nat (7 * 1)) with 7%nat. change (Z.to_nat 1) with 1%nat.
  apply list_eq; intros i. rewrite !list_lookup_fmap.
  destruct (decide (i < 7)%nat) as [Hi|Hi].
  - rewrite lookup_seq_lt by done. rewrite <- (length_bitmap_of c) in Hi.
    apply lookup_lt_is_Some in Hi as [p Hp]. rewrite Hp.
    cbn [fmap option_fmap option_map]. f_equal.
    unfold text_row, glyph_row. cbn [fmap list_fmap mjoin list_join].
    rewrite Nat.add_0_l, Nat.div_1_r, Hp. cbn [default].
    rewrite expand_row_hash.
    rewrite (str_mul_nonpos [ch_space] 0) by lia. by rewrite !app_nil_r.
  - rewrite lookup_seq_ge by lia.
    rewrite (proj2 (lookup_ge_None (bitmap_of c) i))
      by (rewrite length_bitmap_of; lia).
    done.
Qed.

Lemma paint_chars (p : str) :
  Forall (λ x, x = ch_hash ∨ x = ch_space) (paint p).
Proof.
  unfold paint. apply Forall_fmap, Forall_forall. intros bit _. cbn.
  case_decide; auto.
Qed.

Lemma sum_list_lengths (rows : list str) (k : nat) :
  Forall (λ r, length r = k) rows →
  sum_list (length <$> rows) = (k * length rows)%nat.
Proof.
  induction 1 as [|r rows Hr _ IH]; cbn; [lia|]. rewrite IH, Hr. lia.
Qed.

(** C6 fails as stated: output rows are trimmed, so a row whose pattern
    ends in an unset bit is shorter than 5.  For "A" the first row is
    " ###", of length 4, and no reading of the result as 7 rows of length 5
    exists. *)
Lemma C6_trimmed_row_counterexample :
  render_text (lit "A") (lit "#") 1 0
  = Ok (join [ch_newline]
          (lit <$> [" ###"; "#   #"; "#   #"; "#####";
                    "#   #"; "#   #"; "#   #"]%string)
        ++ [ch_newline])
  ∧ ¬ ∃ rows : list str,
        render_text (lit "A") (lit "#") 1 0
          = Ok (join [ch_newline] rows ++ [ch_newline])
        ∧ length rows = 7%nat
        ∧ Forall (λ r, length r = 5%nat) rows.
Proof.
  assert (render_text (lit "A") (lit "#") 1 0
          = Ok (join [ch_newline]
                  (lit <$> [" ###"; "#   #"; "#   #"; "#####";
                            "#   #"; "#   #"; "#   #"]%string)
                ++ [ch_newline])) as Hout by (by vm_compute).
  split; [exact Hout|].
  intros (rows & Heq & Hlen & Hall).
  rewrite Hout in Heq. injection Heq as Heq.
  apply (f_equal length) in Heq.
  destruct (length_join [ch_newline] rows) as [Hj| ->]; [|discriminate Hlen].
  rewrite Hj, (sum_list_lengths rows 5 Hall), Hlen in Heq.
  vm_compute in Heq. discriminate Heq.
Qed.

(** C6, amended: for a character [c] that is a key of [FONT_5x7], or whose
    uppercase form is, [render_text c "#" 1 0] is the 7 rows of its bitmap,
    each drawn with ['#'] at the set bits and a space elsewhere and then
    trimmed: a row is at most 5 long, what trimming removed of the 5 cells
    is spaces only, and a row whose pattern ends in a set bit keeps all 5. *)
Theorem C6_single_glyph (c : char) (bitmap : list str) :
  FONT_5x7 !! [c] = Some bitmap ∨ FONT_5x7 !! upper c = Some bitmap →
  render_text [c] (lit "#") 1 0
    = Ok (join [ch_newline] (rstrip <$> (paint <$> bitmap)) ++ [ch_newline])
  ∧ length bitmap = 7%nat
  ∧ Forall (λ p,
       length (paint p) = 5%nat
       ∧ (∀ j bit, p !! j = Some bit →
            paint p !! j
            = Some (if decide (bit = ch_one) then ch_hash else ch_space))
       ∧ (∃ t, paint p = rstrip (paint p) ++ t
               ∧ Forall (λ x, x = ch_space) t)
       ∧ (length (rstrip (paint p)) ≤ 5)%nat
       ∧ (last p = Some ch_one → rstrip (paint p) = paint p)) bitmap.
Proof.
  intros Hkey.
  assert (FONT_5x7 !! upper c = Some bitmap) as Hup.
  { destruct Hkey as [Hk|Hk]; [|done].
    by rewrite (FONT_5x7_key_upper c bitmap Hk). }
  clear Hkey.
  assert (bitmap_of c = bitmap) as Hb by (unfold bitmap_of; by rewrite Hup).
  destruct (FONT_5x7_ok _ _ Hup) as [H7 Hrows]. clear Hup.
  split; [|split; [done|]].
  - rewrite render_text_spec by lia. by rewrite reference_rows_single, Hb.
  - eapply Forall_impl; [exact Hrows|]. clear. intros p [Hp5 _].
    assert (length (paint p) = 5%nat) as Hlen
      by (unfold paint; by rewrite length_fmap).
    split; [done|]. split; [|split; [|split]].
    + intros j bit Hj. unfold paint. by rewrite list_lookup_fmap, Hj.
    + destruct (rstrip_split (paint p)) as (t & Heq & Ht).
      exists t. split; [done|].
      pose proof (paint_chars p) as Hchars. rewrite Heq in Hchars.
      apply Forall_app in Hchars as [_ Hchars].
      apply Forall_forall. intros x Hx.
      destruct (proj1 (Forall_forall _ _) Hchars x Hx) as [-> | ->]; [|done].
      by pose proof (proj1 (Forall_forall _ _) Ht _ Hx).
    + rewrite <- Hlen. apply length_rstrip.
    + intros Hlast. apply last_Some in Hlast as [q Hq]. subst p.
      unfold paint. rewrite fmap_app. cbn [fmap list_fmap].
      rewrite decide_True by done. by apply rstrip_app_nonspace.
Qed.

Lemma C6_single_glyph_witness :
  render_text [97%N] (lit "#") 1 0
    = Ok (join [ch_newline]
            (rstrip <$> (paint <$> default [] (FONT_5x7 !! lit "A")))
          ++ [ch_newline])
  ∧ length (default [] (FONT_5x7 !! lit "A")) = 7%nat
  ∧ Forall (λ p,
       length (paint p) = 5%nat
       ∧ (∀ j bit, p !! j = Some bit →
            paint p !! j
            = Some (if decide (bit = ch_one) then ch_hash else ch_space))
       ∧ (∃ t, paint p = rstrip (paint p) ++ t
               ∧ Forall (λ x, x = ch_space) t)
       ∧ (length (rstrip (paint p)) ≤ 5)%nat
       ∧ (last p = Some ch_one → rstrip (paint p) = paint p))
      (default [] (FONT_5x7 !! lit "A")).
Proof.
  apply (C6_single_glyph 97%N (default [] (FONT_5x7 !! lit "A"))).
  right. vm_compute. reflexivity.
Defined.

(** ** The gap between two glyphs *)

(** C7 fails as stated: at scale 1 and spacing 1 the glyphs of "HI" are one
    space apart, not [1 * (1 + 1)]. *)
Lemma C7_gap_counterexample :
  render_rows (lit "HI") (lit "#") 1 1
  = Ok (lit <$> ["#   #  ###  "; "#   #   #   "; "#   #   #   ";
                 "#####   #   "; "#   #   #   "; "#   #   #   ";
                 "#   #  ###  "]%string)
  ∧ ¬ gap_between 72%N 73%N (lit "#") 1 1 (1 * (1 + 1)).
Proof.
  assert (render_rows (lit "HI") (lit "#") 1 1
          = Ok (lit <$> ["#   #  ###  "; "#   #   #   "; "#   #   #   ";
                         "#####   #   "; "#   #   #   "; "#   #   #   ";
                         "#   #  ###  "]%string)) as Hrows
    by (by vm_compute).
  split; [exact Hrows|].
  intros (rows & Heq & _ & Hgap).
  change [72%N; 73%N] with (lit "HI") in Heq.
  rewrite Hrows in Heq. injection Heq as <-.
  destruct (Hgap 0%nat _ eq_refl) as [tail Htail].
  vm_compute in Htail. discriminate Htail.
Qed.

(** * Further properties of [render_text] *)

(** ** Helper facts *)

Lemma rstrip_app_space (s w : str) :
  Forall (λ c, isspace c = true) w → rstrip (s ++ w) = rstrip s.
Proof.
  intros Hw. induction s as [|c s IH].
  - by apply rstrip_nil_iff.
  - change (rstrip ((c :: s) ++ w))
      with (match rstrip (s ++ w) with
            | [] => if isspace c then [] else [c]
            | t => c :: t
            end).
    by rewrite IH.
Qed.

Lemma text_row_app (draw : str) (scale spacing : Z) (t1 t2 : str) (r : nat) :
  text_row draw scale spacing (t1 ++ t2) r
  = text_row draw scale spacing t1 r ++ text_row draw scale spacing t2 r.
Proof. unfold text_row. by rewrite fmap_app, join_app. Qed.

(** A row function of [i / n] over [k * n] indices is [k] values, each
    repeated [n] times. *)
Lemma fmap_div_seq {A} (f : nat → A) (n k : nat) :
  (0 < n)%nat →
  (λ i, f (i / n)%nat) <$> seq 0 (k * n)
  = mjoin ((λ r, replicate n (f r)) <$> seq 0 k).
Proof.
  intros Hn. induction k as [|k IH]; [done|].
  replace (S k * n)%nat with (k * n + n)%nat by lia.
  rewrite seq_app, fmap_app, IH, seq_S, fmap_app, join_app.
  f_equal. cbn [fmap list_fmap mjoin list_join]. rewrite app_nil_r.
  apply list_eq; intros i. rewrite list_lookup_fmap.
  destruct (decide (i < n)%nat) as [Hi|Hi].
  - rewrite lookup_seq_lt, lookup_replicate_2 by done. cbn. do 2 f_equal.
    symmetry. apply Nat.div_unique with i; lia.
  - rewrite lookup_seq_ge by lia.
    by rewrite (proj1 (lookup_replicate_None _ _ _)) by lia.
Qed.

(** The result for rows that are all blank after trimming. *)
Lemma join_blank_rows (k : nat) :
  join [ch_newline] (replicate (S k) []) ++ [ch_newline]
  = replicate (S k) ch_newline.
Proof.
  rewrite join_replicate_nil, replicate_S_end. f_equal.
  rewrite <- (Nat2Z.id k) at 2. rewrite <- str_mul_char_replicate.
  unfold str_mul. by rewrite Nat2Z.id.
Qed.

Lemma length_mjoin_const {A} (ls : list (list A)) (n : nat) :
  Forall (λ l, length l = n) ls → length (mjoin ls) = (length ls * n)%nat.
Proof.
  induction 1 as [|l ls Hl _ IH]; [done|].
  change (mjoin (l :: ls)) with (l ++ mjoin ls).
  rewrite length_app, IH, Hl. cbn [length]. lia.
Qed.

Lemma length_glyph_row (draw : str) (scale : Z) (ch : char) (r : nat) :
  length draw = 1%nat →
  (r < 7)%nat →
  length (glyph_row draw scale ch r) = (5 * Z.to_nat scale)%nat.
Proof.
  intros Hd Hr. unfold glyph_row.
  destruct (bitmap_of_ok ch) as [H7 Hrows].
  destruct (lookup_lt_is_Some_2 (bitmap_of ch) r) as [p Hp]; [lia|].
  rewrite Hp. change (default [] (Some p)) with p.
  destruct (proj1 (Forall_forall _ _) Hrows p) as [Hp5 _];
    [by eapply list_elem_of_lookup_2|].
  rewrite expand_row_cells.
  rewrite (length_mjoin_const _ (Z.to_nat scale)).
  - rewrite length_fmap, Hp5. done.
  - apply Forall_fmap, Forall_forall. intros bit _. cbn. unfold cell.
    case_decide; rewrite length_str_mul; [rewrite Hd|]; cbn; lia.
Qed.

Lemma length_text_row (draw : str) (scale spacing : Z) (text : str)
    (r : nat) :
  length draw = 1%nat →
  (r < 7)%nat →
  length (text_row draw scale spacing text r)
  = (length text * (5 * Z.to_nat scale + Z.to_nat spacing))%nat.
Proof.
  intros Hd Hr. unfold text_row.
  rewrite (length_mjoin_const _ (5 * Z.to_nat scale + Z.to_nat spacing)).
  - by rewrite length_fmap.
  - apply Forall_fmap, Forall_forall. intros ch _. cbn.
    by rewrite length_app, length_glyph_row, length_str_mul_char.
Qed.

(** The glyph of the space character is blank in every row. *)
Lemma space_glyph_row (draw : str) (scale : Z) (r : nat) :
  Forall (λ c, c = ch_space) (glyph_row draw scale ch_space r).
Proof.
  unfold glyph_row.
  assert (bitmap_of ch_space = replicate 7 (lit "00000")) as ->
    by (by vm_compute).
  destruct (replicate 7 (lit "00000") !! r) as [p|] eqn:Ep.
  - change (default [] (Some p)) with p.
    apply lookup_replicate in Ep as [-> _]. rewrite expand_row_cells.
    apply Forall_mjoin, Forall_fmap, Forall_forall. intros bit Hbit. cbn.
    assert (bit = ch_zero) as ->.
    { revert Hbit. change (lit "00000") with (replicate 5 ch_zero).
      intros Hbit. by apply elem_of_replicate in Hbit as [-> _]. }
    unfold cell. rewrite decide_False by done.
    by apply str_mul_chars, Forall_singleton.
  - constructor.
Qed.

Lemma space_text_row (draw : str) (scale spacing : Z) (k r : nat) :
  Forall (λ c, isspace c = true)
    (text_row draw scale spacing (replicate k ch_space) r).
Proof.
  unfold text_row. apply Forall_mjoin, Forall_fmap, Forall_forall.
  intros ch Hch. apply elem_of_replicate in Hch as [-> _]. cbn.
  apply Forall_app. split.
  - eapply Forall_impl; [apply space_glyph_row|]. by intros c ->.
  - apply str_mul_chars, Forall_singleton. done.
Qed.

(** ** Properties *)

(** X1: at a valid scale rendering is a homomorphism for concatenation: the
    accumulator of [t1 ++ t2] is, row by row, the row of [t1] followed by
    the row of [t2]. *)
Theorem X1_render_rows_app (t1 t2 draw : str) (scale spacing : Z) :
  1 ≤ scale →
  ∃ rows1 rows2 : list str,
    render_rows t1 draw scale spacing = Ok rows1
    ∧ render_rows t2 draw scale spacing = Ok rows2
    ∧ length rows1 = Z.to_nat (7 * scale)
    ∧ length rows2 = Z.to_nat (7 * scale)
    ∧ render_rows (t1 ++ t2) draw scale spacing
      = Ok (zip_with app rows1 rows2).
Proof.
  intros Hscale.
  exists (reference_rows t1 draw scale spacing),
         (reference_rows t2 draw scale spacing).
  split; [by apply render_rows_spec|]. split; [by apply render_rows_spec|].
  split; [apply length_reference_rows|].
  split; [apply length_reference_rows|].
  rewrite render_rows_spec by done. f_equal. unfold reference_rows.
  apply list_eq; intros i.
  rewrite lookup_zip_with, !list_lookup_fmap.
  destruct (seq 0 (Z.to_nat (7 * scale)) !! i); cbn; [|done].
  by rewrite text_row_app.
Qed.

Lemma X1_render_rows_app_witness :
  ∃ rows1 rows2 : list str,
    render_rows (lit "H") (lit "#") 2 1 = Ok rows1
    ∧ render_rows (lit "i") (lit "#") 2 1 = Ok rows2
    ∧ length rows1 = Z.to_nat (7 * 2)
    ∧ length rows2 = Z.to_nat (7 * 2)
    ∧ render_rows (lit "H" ++ lit "i") (lit "#") 2 1
      = Ok (zip_with app rows1 rows2).
Proof.
  apply (X1_render_rows_app (lit "H") (lit "i") (lit "#") 2 1). lia.
Defined.

(** X2: at a valid scale the result is 7 lines, each repeated [scale]
    times in a row: every bitmap row becomes [scale] identical output
    rows. *)
Theorem X2_rows_repeat_scale_times (text draw : str) (scale spacing : Z) :
  1 ≤ scale →
  ∃ lines : list str,
    length lines = 7%nat
    ∧ render_text text draw scale spacing
      = Ok (join [ch_newline]
              (mjoin (replicate (Z.to_nat scale) <$> lines))
            ++ [ch_newline]).
Proof.
  intros Hscale.
  exists ((λ r, rstrip (text_row draw scale spacing text r)) <$> seq 0 7).
  split; [by rewrite length_fmap, length_seq|].
  rewrite render_text_spec by done. do 3 f_equal.
  unfold reference_rows. rewrite <- !list_fmap_compose.
  replace (Z.to_nat (7 * scale)) with (7 * Z.to_nat scale)%nat by lia.
  apply (fmap_div_seq (λ r, rstrip (text_row draw scale spacing text r))).
  lia.
Qed.

Lemma X2_rows_repeat_scale_times_witness :
  ∃ lines : list str,
    length lines = 7%nat
    ∧ render_text (lit "Hi") (lit "#") 3 1
      = Ok (join [ch_newline] (mjoin (replicate (Z.to_nat 3) <$> lines))
            ++ [ch_newline]).
Proof.
  apply (X2_rows_repeat_scale_times (lit "Hi") (lit "#") 3 1). lia.
Defined.

(** X3: with a one-character draw symbol, at a valid scale every
    accumulator row is [len(text) * (5 * scale + spacing)] long (a negative
    spacing counting as 0), and no output row is longer. *)
Theorem X3_row_width (text draw : str) (scale spacing : Z) :
  1 ≤ scale →
  length draw = 1%nat →
  ∃ rows : list str,
    render_rows text draw scale spacing = Ok rows
    ∧ Forall (λ row,
        length row
        = (length text * (5 * Z.to_nat scale + Z.to_nat spacing))%nat
        ∧ (length (rstrip row)
           ≤ length text * (5 * Z.to_nat scale + Z.to_nat spacing))%nat)
        rows.
Proof.
  intros Hscale Hd. exists (reference_rows text draw scale spacing).
  split; [by apply render_rows_spec|].
  unfold reference_rows. apply Forall_fmap, Forall_forall. intros i Hi.
  apply elem_of_seq in Hi.
  assert (i / Z.to_nat scale < 7)%nat as Hr
    by (apply Nat.Div0.div_lt_upper_bound; lia).
  pose proof (length_text_row draw scale spacing text _ Hd Hr) as Hlen.
  split; [exact Hlen|].
  etrans; [apply length_rstrip|]. by rewrite Hlen.
Qed.

Lemma X3_row_width_witness :
  ∃ rows : list str,
    render_rows (lit "Hi") (lit "#") 2 1 = Ok rows
    ∧ Forall (λ row,
        length row
        = (length (lit "Hi") * (5 * Z.to_nat 2 + Z.to_nat 1))%nat
        ∧ (length (rstrip row)
           ≤ length (lit "Hi") * (5 * Z.to_nat 2 + Z.to_nat 1))%nat)
        rows.
Proof.
  apply (X3_row_width (lit "Hi") (lit "#") 2 1); [lia | reflexivity].
Defined.

(** X4: space characters at the end of the text do not show: the result,
    or the error, is that of the text without them. *)
Theorem X4_trailing_spaces_invisible (text draw : str) (scale spacing : Z)
    (k : nat) :
  render_text (text ++ replicate k ch_space) draw scale spacing
  = render_text text draw scale spacing.
Proof.
  destruct (decide (scale < 1)) as [Hlt|Hge].
  - unfold render_text. by rewrite !decide_True by done.
  - rewrite !render_text_spec by lia. do 3 f_equal.
    unfold reference_rows. rewrite <- !list_fmap_compose.
    apply list_fmap_ext. intros _ i _. cbn.
    rewrite text_row_app. apply rstrip_app_space, space_text_row.
Qed.

(** X5: when the draw symbol is whitespace only, everything is trimmed
    away: at a valid scale the result for any text is [7 * scale] line
    breaks. *)
Theorem X5_whitespace_draw_is_blank (text draw : str) (scale spacing : Z) :
  1 ≤ scale →
  Forall (λ c, isspace c = true) draw →
  render_text text draw scale spacing
  = Ok (replicate (Z.to_nat (7 * scale)) ch_newline).
Proof.
  intros Hscale Hdraw. rewrite render_text_spec by done. f_equal.
  assert (rstrip <$> reference_rows text draw scale spacing
          = replicate (Z.to_nat (7 * scale)) []) as ->.
  { unfold reference_rows. rewrite <- list_fmap_compose.
    apply list_eq; intros i. rewrite list_lookup_fmap.
    destruct (decide (i < Z.to_nat (7 * scale))%nat) as [Hi|Hi].
    - rewrite lookup_seq_lt, lookup_replicate_2 by done. cbn. f_equal.
      apply rstrip_nil_iff.
      eapply Forall_impl; [apply text_row_chars|].
      intros c [Hc| ->]; [|done].
      by apply (proj1 (Forall_forall _ _) Hdraw).
    - rewrite lookup_seq_ge by lia.
      by rewrite (proj1 (lookup_replicate_None _ _ _)) by lia. }
  destruct (Z.to_nat (7 * scale)) as [|n] eqn:En; [lia|].
  apply join_blank_rows.
Qed.

Lemma X5_whitespace_draw_is_blank_witness :
  render_text (lit "Hi") (lit " ") 2 1
  = Ok (replicate (Z.to_nat (7 * 2)) ch_newline).
Proof.
  apply (X5_whitespace_draw_is_blank (lit "Hi") (lit " ") 2 1); [lia|].
  apply (bool_decide_unpack _). vm_compute. exact I.
Defined.

(** X6: no entry of [FONT_5x7] is dead: every key is a single character
    that is its own uppercase form, so that character is drawn with the
    entry's bitmap. *)
Theorem X6_font_entries_reachable (key : str) (bitmap : list str) :
  FONT_5x7 !! key = Some bitmap →
  ∃ c : char, key = [c] ∧ upper c = [c] ∧ bitmap_of c = bitmap.
Proof.
  intros Hkey. pose proof Hkey as Hin. apply elem_of_list_to_map_2 in Hin.
  pose proof (proj1 (Forall_forall _ _) font_keys_upper _ Hin) as Hk.
  unfold key_fixed in Hk. cbn in Hk.
  destruct key as [|c [|]];
    [exfalso; clear -Hk; discriminate Hk | | exfalso; clear -Hk;
     discriminate Hk].
  apply bool_decide_eq_true in Hk. exists c. split; [done|]. split; [done|].
  unfold bitmap_of. by rewrite Hk, Hkey.
Qed.

Lemma X6_font_entries_reachable_witness :
  ∃ c : char,
    lit "A" = [c] ∧ upper c = [c]
    ∧ bitmap_of c = default [] (FONT_5x7 !! lit "A").
Proof.
  apply (X6_font_entries_reachable (lit "A")
           (default [] (FONT_5x7 !! lit "A"))).
  vm_compute. reflexivity.
Defined.

(** * A banner identifies its character *)

Lemma app_newline_inj (r1 r2 rest1 rest2 : str) :
  ch_newline ∉ r1 → ch_newline ∉ r2 →
  r1 ++ ch_newline :: rest1 = r2 ++ ch_newline :: rest2 →
  r1 = r2 ∧ rest1 = rest2.
Proof.
  revert r2. induction r1 as [|a r1 IH]; intros [|b r2] H1 H2 Heq.
  - by injection Heq as ->.
  - injection Heq as <- _. exfalso. apply H2. by left.
  - injection Heq as -> _. exfalso. apply H1. by left.
  - injection Heq as -> Heq.
    destruct (IH r2) as [-> ->]; [| |done|done].
    + intros Hin. apply H1. by right.
    + intros Hin. apply H2. by right.
Qed.

Lemma join_terminated (sep : str) (parts : list str) :
  parts ≠ [] →
  join sep parts ++ sep = mjoin ((λ r, r ++ sep) <$> parts).
Proof.
  induction parts as [|p [|q ps] IH]; intros Hne; [done| |].
  - cbn. by rewrite app_nil_r.
  - change (join sep (p :: q :: ps)) with (p ++ sep ++ join sep (q :: ps)).
    change (mjoin ((λ r, r ++ sep) <$> p :: q :: ps))
      with ((p ++ sep) ++ mjoin ((λ r, r ++ sep) <$> q :: ps)).
    rewrite <- IH by done. by rewrite <- !app_assoc.
Qed.

Lemma terminated_rows_inj (rows1 rows2 : list str) :
  Forall (λ r, ch_newline ∉ r) rows1 →
  Forall (λ r, ch_newline ∉ r) rows2 →
  mjoin ((λ r, r ++ [ch_newline]) <$> rows1)
  = mjoin ((λ r, r ++ [ch_newline]) <$> rows2) →
  rows1 = rows2.
Proof.
  intros H1. revert rows2.
  induction H1 as [|r1 rows1 Hr1 _ IH]; intros rows2 H2 Heq.
  - destruct H2 as [|r2 rows2 _ _]; [done|]. by destruct r2.
  - destruct H2 as [|r2 rows2 Hr2 H2]; [by destruct r1|].
    change ((r1 ++ [ch_newline])
              ++ mjoin ((λ r, r ++ [ch_newline]) <$> rows1)
            = (r2 ++ [ch_newline])
              ++ mjoin ((λ r, r ++ [ch_newline]) <$> rows2)) in Heq.
    rewrite <- !app_assoc in Heq.
    apply app_newline_inj in Heq as [-> Heq]; [|done|done].
    f_equal. by apply IH.
Qed.

Lemma repeated_inj {A} (n : nat) (l1 l2 : list A) :
  (0 < n)%nat →
  mjoin (replicate n <$> l1) = mjoin (replicate n <$> l2) →
  l1 = l2.
Proof.
  intros Hn. destruct n as [|m]; [lia|]. clear Hn. revert l2.
  induction l1 as [|a l1 IH]; intros [|b l2] Heq; [done| | |].
  - discriminate Heq.
  - discriminate Heq.
  - change (replicate (S m) a ++ mjoin (replicate (S m) <$> l1)
            = replicate (S m) b ++ mjoin (replicate (S m) <$> l2)) in Heq.
    cbn [replicate app] in Heq. injection Heq as -> Heq.
    apply app_inv_head in Heq. f_equal. by apply IH.
Qed.

(** Two strings of the same length over one visible character and the
    space are equal when they are equal after trimming. *)
Lemma same_length_rstrip_eq (d : char) (a b : str) :
  isspace d = false →
  Forall (λ c, c = d ∨ c = ch_space) a →
  Forall (λ c, c = d ∨ c = ch_space) b →
  length a = length b →
  rstrip a = rstrip b →
  a = b.
Proof.
  intros Hd Ha Hb Hlen Heq.
  assert (∀ s, Forall (λ c, c = d ∨ c = ch_space) s →
            s = rstrip s ++ replicate (length s - length (rstrip s)) ch_space)
    as Htail.
  { intros s Hs. destruct (rstrip_split s) as (t & Hst & Ht).
    rewrite Hst at 1. f_equal. symmetry. apply replicate_as_Forall. split.
    - rewrite Hst at 1. rewrite length_app. lia.
    - rewrite Hst in Hs. apply Forall_app in Hs as [_ Hs].
      apply Forall_forall. intros c Hc.
      destruct (proj1 (Forall_forall _ _) Hs c Hc) as [-> | ->]; [|done].
      pose proof (proj1 (Forall_forall _ _) Ht _ Hc). congruence. }
  rewrite (Htail a Ha), (Htail b Hb). by rewrite Heq, Hlen.
Qed.

Lemma expand_row_pixels (d : char) (scale : Z) (row_pattern : str) :
  expand_row [d] scale row_pattern
  = mjoin (replicate (Z.to_nat scale) <$> (pixel d <$> row_pattern)).
Proof.
  rewrite expand_row_cells, <- list_fmap_compose. f_equal.
  apply list_fmap_ext. intros _ bit _. cbn. unfold cell, pixel.
  case_decide; apply str_mul_char_replicate.
Qed.

Lemma pixel_rows_inj (d : char) (p1 p2 : str) :
  d ≠ ch_space →
  Forall (λ c, c = ch_zero ∨ c = ch_one) p1 →
  Forall (λ c, c = ch_zero ∨ c = ch_one) p2 →
  pixel d <$> p1 = pixel d <$> p2 →
  p1 = p2.
Proof.
  intros Hd H1. revert p2.
  induction H1 as [|a p1 Ha _ IH]; intros p2 H2 Heq.
  - by destruct p2.
  - destruct H2 as [|b p2 Hb H2]; [discriminate Heq|].
    cbn [fmap list_fmap] in Heq. injection Heq as Hab Heq.
    f_equal; [|by apply IH].
    unfold pixel in Hab.
    destruct Ha as [-> | ->], Hb as [-> | ->]; try done;
      repeat case_decide; congruence.
Qed.

Lemma glyph_row_pixels (d : char) (scale : Z) (ch : char) (r : nat) :
  Forall (λ c, c = d ∨ c = ch_space) (glyph_row [d] scale ch r).
Proof.
  unfold glyph_row. rewrite expand_row_pixels.
  apply Forall_mjoin, Forall_fmap, Forall_fmap, Forall_forall.
  intros bit _. cbn. apply Forall_replicate. unfold pixel.
  case_decide; auto.
Qed.

(** The bitmaps of the font are pairwise different, and none is the
    placeholder. *)
Lemma font_bitmaps_distinct :
  NoDup (font_entries.*2) ∧ fallback_bitmap ∉ font_entries.*2.
Proof.
  split; apply (bool_decide_unpack _); by vm_compute.
Qed.

Lemma NoDup_fmap_eq {A B} (f : A → B) (l : list A) (x y : A) :
  NoDup (f <$> l) → x ∈ l → y ∈ l → f x = f y → x = y.
Proof.
  induction l as [|a l IH]; intros Hnd Hx Hy Hf; [by inversion Hx|].
  cbn [fmap list_fmap] in Hnd. apply NoDup_cons in Hnd as [Hna Hnd].
  apply elem_of_cons in Hx as [->|Hx]; apply elem_of_cons in Hy as [->|Hy].
  - done.
  - exfalso. apply Hna. rewrite Hf. by apply list_elem_of_fmap_2.
  - exfalso. apply Hna. rewrite <- Hf. by apply list_elem_of_fmap_2.
  - by apply IH.
Qed.

(** The output rows of a text at a valid scale hold no line break when the
    draw symbol holds none. *)
Lemma output_rows_no_newline (text draw : str) (scale spacing : Z) :
  ch_newline ∉ draw →
  Forall (λ r, ch_newline ∉ r)
    (rstrip <$> reference_rows text draw scale spacing).
Proof.
  intros Hdraw. apply Forall_fmap, Forall_fmap, Forall_forall.
  intros i _. cbn. intros Hin.
  pose proof (rstrip_chars _ _
    (text_row_chars draw scale spacing text (i / Z.to_nat scale)%nat))
    as Hchars.
  apply (proj1 (Forall_forall _ _) Hchars) in Hin as [Hin|Hin]; [done|].
  discriminate Hin.
Qed.

(** Equal results for two one-character texts give equal bitmaps. *)
Lemma equal_banner_equal_bitmap (c1 c2 d : char) (scale spacing : Z) :
  1 ≤ scale →
  isspace d = false →
  render_text [c1] [d] scale spacing = render_text [c2] [d] scale spacing →
  bitmap_of c1 = bitmap_of c2.
Proof.
  intros Hscale Hd Heq.
  assert (d ≠ ch_newline) as Hnl by (intros ->; discriminate Hd).
  assert (d ≠ ch_space) as Hsp by (intros ->; discriminate Hd).
  rewrite !render_text_spec in Heq by done.
  apply (f_equal (λ res, match res with Ok s => s | Raise _ => [] end))
    in Heq.
  cbn beta iota in Heq.
  rewrite !join_terminated in Heq.
  2, 3: intros Hnil; apply (f_equal length) in Hnil;
        rewrite length_fmap, length_reference_rows in Hnil;
        cbn [length] in Hnil; lia.
  apply terminated_rows_inj in Heq.
  2, 3: apply output_rows_no_newline; intros Hin;
        apply list_elem_of_singleton in Hin; congruence.
  apply list_eq; intros r.
  destruct (decide (r < 7)%nat) as [Hr|Hr].
  2:{ rewrite !(proj2 (lookup_ge_None _ _))
        by (rewrite length_bitmap_of; lia). done. }
  assert (rstrip (text_row [d] scale spacing [c1] r)
          = rstrip (text_row [d] scale spacing [c2] r)) as Hrow.
  { apply (f_equal (λ rows, rows !! (r * Z.to_nat scale)%nat)) in Heq.
    unfold reference_rows in Heq.
    rewrite <- !list_fmap_compose, !list_lookup_fmap in Heq.
    rewrite lookup_seq_lt in Heq by nia.
    cbn [fmap option_fmap option_map compose] in Heq.
    rewrite Nat.add_0_l, Nat.div_mul in Heq by lia.
    by apply (inj Some) in Heq. }
  unfold text_row in Hrow. cbn [fmap list_fmap mjoin list_join] in Hrow.
  rewrite !app_nil_r in Hrow.
  rewrite !rstrip_app_space in Hrow
    by (by apply str_mul_chars, Forall_singleton).
  apply (same_length_rstrip_eq d) in Hrow;
    [|done|apply glyph_row_pixels|apply glyph_row_pixels|].
  2:{ by rewrite !length_glyph_row. }
  unfold glyph_row in Hrow.
  destruct (bitmap_of_ok c1) as [H71 Hok1].
  destruct (bitmap_of_ok c2) as [H72 Hok2].
  destruct (lookup_lt_is_Some_2 (bitmap_of c1) r) as [p1 Hp1]; [lia|].
  destruct (lookup_lt_is_Some_2 (bitmap_of c2) r) as [p2 Hp2]; [lia|].
  rewrite Hp1, Hp2 in Hrow |- *.
  change (default [] (Some p1)) with p1 in Hrow.
  change (default [] (Some p2)) with p2 in Hrow.
  rewrite !expand_row_pixels in Hrow.
  apply repeated_inj in Hrow; [|lia].
  f_equal. apply (pixel_rows_inj d); [done| | |done].
  - apply (proj1 (Forall_forall _ _) Hok1 p1).
    eapply list_elem_of_lookup_2. exact Hp1.
  - apply (proj1 (Forall_forall _ _) Hok2 p2).
    eapply list_elem_of_lookup_2. exact Hp2.
Qed.

(** X11: with a draw symbol of one visible character, at a valid scale
    and any spacing, the banner of one character identifies its bitmap;
    so when a character with a glyph and another character give the same
    banner, the two have the same uppercase form. *)
Theorem X11_banner_identifies_character (c1 c2 d : char)
    (scale spacing : Z) :
  1 ≤ scale →
  isspace d = false →
  render_text [c1] [d] scale spacing = render_text [c2] [d] scale spacing →
  bitmap_of c1 = bitmap_of c2
  ∧ (is_Some (FONT_5x7 !! upper c1) → upper c2 = upper c1).
Proof.
  intros Hscale Hd Heq.
  pose proof (equal_banner_equal_bitmap c1 c2 d scale spacing Hscale Hd Heq)
    as Hb.
  split; [exact Hb|]. intros [b1 H1]. clear Heq.
  destruct font_bitmaps_distinct as [Hnd Hfb].
  unfold bitmap_of in Hb. rewrite H1 in Hb.
  pose proof H1 as Hin1. apply elem_of_list_to_map_2 in Hin1.
  destruct (FONT_5x7 !! upper c2) as [b2|] eqn:H2.
  - pose proof H2 as Hin2. apply elem_of_list_to_map_2 in Hin2.
    clear H1 H2. subst b2.
    pose proof (NoDup_fmap_eq snd font_entries _ _ Hnd Hin2 Hin1 eq_refl)
      as Hpair.
    exact (f_equal fst Hpair).
  - exfalso. apply Hfb. clear H1 H2. subst b1.
    by apply (list_elem_of_fmap_2 snd) in Hin1.
Qed.

Lemma X11_banner_identifies_character_witness :
  bitmap_of 97%N = bitmap_of 65%N
  ∧ (is_Some (FONT_5x7 !! upper 97%N) → upper 65%N = upper 97%N).
Proof.
  apply (X11_banner_identifies_character 97%N 65%N ch_hash 2 1).
  - lia.
  - reflexivity.
  - vm_compute. reflexivity.
Defined.

(** * The placeholder and the separator in the rows of a text *)

Lemma lookup_reference_rows (text draw : str) (scale spacing : Z) (i : nat)
    (row : str) :
  reference_rows text draw scale spacing !! i = Some row →
  row = text_row draw scale spacing text (i / Z.to_nat scale)%nat
  ∧ (i < Z.to_nat (7 * scale))%nat.
Proof.
  unfold reference_rows. rewrite list_lookup_fmap. intros Hi.
  destruct (seq 0 (Z.to_nat (7 * scale)) !! i) as [k|] eqn:Ek;
    [|discriminate Hi].
  apply lookup_seq in Ek as [-> Hlt].
  apply (inj Some) in Hi. by rewrite <- Hi.
Qed.

Lemma text_row_cons (draw : str) (scale spacing : Z) (ch : char)
    (text : str) (r : nat) :
  text_row draw scale spacing (ch :: text) r
  = glyph_row draw scale ch r ++ replicate (Z.to_nat spacing) ch_space
    ++ text_row draw scale spacing text r.
Proof.
  unfold text_row. cbn [fmap list_fmap mjoin list_join].
  by rewrite str_mul_char_replicate, <- app_assoc.
Qed.

(** The expanded rows of the placeholder, written out. *)
Lemma placeholder_glyph_row (draw : str) (scale : Z) (ch : char) (r : nat) :
  bitmap_of ch = fallback_bitmap →
  (r < 7)%nat →
  glyph_row draw scale ch r
  = if decide (r = 3%nat)
    then replicate (2 * Z.to_nat scale) ch_space
         ++ mjoin (replicate (Z.to_nat scale) draw)
         ++ replicate (2 * Z.to_nat scale) ch_space
    else replicate (5 * Z.to_nat scale) ch_space.
Proof.
  intros Hb Hr. unfold glyph_row. rewrite Hb. clear Hb.
  assert (cell draw scale ch_zero = replicate (Z.to_nat scale) ch_space)
    as Hzero.
  { unfold cell. rewrite decide_False by done.
    apply str_mul_char_replicate. }
  assert (cell draw scale ch_one = mjoin (replicate (Z.to_nat scale) draw))
    as Hone by (unfold cell; by rewrite decide_True).
  assert (expand_row draw scale (lit "00000")
          = replicate (5 * Z.to_nat scale) ch_space) as Hblank.
  { rewrite expand_row_cells.
    change (lit "00000")
      with [ch_zero; ch_zero; ch_zero; ch_zero; ch_zero].
    cbn [fmap list_fmap mjoin list_join]. rewrite Hzero.
    rewrite app_nil_r, <- !replicate_add. f_equal. lia. }
  assert (expand_row draw scale (lit "00100")
          = replicate (2 * Z.to_nat scale) ch_space
            ++ mjoin (replicate (Z.to_nat scale) draw)
            ++ replicate (2 * Z.to_nat scale) ch_space) as Hmark.
  { rewrite expand_row_cells.
    change (lit "00100")
      with [ch_zero; ch_zero; ch_one; ch_zero; ch_zero].
    cbn [fmap list_fmap mjoin list_join]. rewrite Hzero, Hone.
    rewrite app_nil_r, !app_assoc, <- replicate_add, <- !app_assoc.
    rewrite <- replicate_add.
    by replace (Z.to_nat scale + Z.to_nat scale)%nat
      with (2 * Z.to_nat scale)%nat by lia. }
  do 7 (destruct r as [|r];
        [first [exact Hblank | exact Hmark]|]).
  lia.
Qed.

(** C4: a character whose uppercase form has no entry in [FONT_5x7] is
    not an error.  Its bitmap is the placeholder, seven blank rows of
    five cells with the single set cell at row 3, column 2.  Wherever the
    character stands in a text, rendering succeeds with [7 * scale] rows,
    and each accumulator row is the row of the text before it, then the
    placeholder's row ([5 * scale] columns, blank but for the draw symbol
    [scale] times in the middle of the rows of bitmap row 3) and the
    separator, then the row of the text after it. *)
Theorem C4_unknown_char_placeholder (pre post : str) (ch : char)
    (draw : str) (scale spacing : Z) :
  FONT_5x7 !! upper ch = None →
  1 ≤ scale →
  bitmap_of ch = fallback_bitmap
  ∧ fallback_bitmap
    = lit <$> ["00000"; "00000"; "00000"; "00100";
               "00000"; "00000"; "00000"]%string
  ∧ (∀ r col,
       (∃ p, fallback_bitmap !! r = Some p ∧ p !! col = Some ch_one)
       ↔ r = 3%nat ∧ col = 2%nat)
  ∧ ∃ rows_pre rows_post rows : list str,
      render_rows pre draw scale spacing = Ok rows_pre
      ∧ render_rows post draw scale spacing = Ok rows_post
      ∧ render_rows (pre ++ ch :: post) draw scale spacing = Ok rows
      ∧ length rows = Z.to_nat (7 * scale)
      ∧ (∀ i a b,
           rows_pre !! i = Some a →
           rows_post !! i = Some b →
           rows !! i
           = Some (a
                   ++ (if decide (i / Z.to_nat scale = 3)%nat
                       then replicate (2 * Z.to_nat scale) ch_space
                            ++ mjoin (replicate (Z.to_nat scale) draw)
                            ++ replicate (2 * Z.to_nat scale) ch_space
                       else replicate (5 * Z.to_nat scale) ch_space)
                   ++ replicate (Z.to_nat spacing) ch_space
                   ++ b))
      ∧ render_text (pre ++ ch :: post) draw scale spacing
        = Ok (join [ch_newline] (rstrip <$> rows) ++ [ch_newline]).
Proof.
  intros Hnone Hscale.
  assert (bitmap_of ch = fallback_bitmap) as Hb
    by (unfold bitmap_of; by rewrite Hnone).
  clear Hnone.
  split; [done|]. split; [reflexivity|].
  split; [apply fallback_bitmap_cell|].
  exists (reference_rows pre draw scale spacing),
         (reference_rows post draw scale spacing),
         (reference_rows (pre ++ ch :: post) draw scale spacing).
  split; [by apply render_rows_spec|]. split; [by apply render_rows_spec|].
  split; [by apply render_rows_spec|].
  split; [apply length_reference_rows|].
  split; [|by apply render_text_spec].
  intros i a b Ha Hb'.
  apply lookup_reference_rows in Ha as [-> Hi].
  apply lookup_reference_rows in Hb' as [-> _].
  assert (i / Z.to_nat scale < 7)%nat as Hr
    by (apply Nat.Div0.div_lt_upper_bound; lia).
  unfold reference_rows. rewrite list_lookup_fmap, lookup_seq_lt by done.
  cbn [fmap option_fmap option_map]. rewrite Nat.add_0_l. f_equal.
  rewrite text_row_app, text_row_cons.
  by rewrite (placeholder_glyph_row draw scale ch _ Hb Hr).
Qed.

Lemma C4_unknown_char_placeholder_witness :
  bitmap_of 64%N = fallback_bitmap
  ∧ fallback_bitmap
    = lit <$> ["00000"; "00000"; "00000"; "00100";
               "00000"; "00000"; "00000"]%string
  ∧ (∀ r col,
       (∃ p, fallback_bitmap !! r = Some p ∧ p !! col = Some ch_one)
       ↔ r = 3%nat ∧ col = 2%nat)
  ∧ ∃ rows_pre rows_post rows : list str,
      render_rows (lit "a") (lit "#") 2 1 = Ok rows_pre
      ∧ render_rows (lit "b") (lit "#") 2 1 = Ok rows_post
      ∧ render_rows (lit "a" ++ 64%N :: lit "b") (lit "#") 2 1 = Ok rows
      ∧ length rows = Z.to_nat (7 * 2)
      ∧ (∀ i a b,
           rows_pre !! i = Some a →
           rows_post !! i = Some b →
           rows !! i
           = Some (a
                   ++ (if decide (i / Z.to_nat 2 = 3)%nat
                       then replicate (2 * Z.to_nat 2) ch_space
                            ++ mjoin (replicate (Z.to_nat 2) (lit "#"))
                            ++ replicate (2 * Z.to_nat 2) ch_space
                       else replicate (5 * Z.to_nat 2) ch_space)
                   ++ replicate (Z.to_nat 1) ch_space
                   ++ b))
      ∧ render_text (lit "a" ++ 64%N :: lit "b") (lit "#") 2 1
        = Ok (join [ch_newline] (rstrip <$> rows) ++ [ch_newline]).
Proof.
  apply (C4_unknown_char_placeholder (lit "a") (lit "b") 64%N (lit "#") 2 1).
  - vm_compute. reflexivity.
  - lia.
Defined.

(** C7, amended: for every scale >= 1 and spacing >= 1, in every text the
    separator after a glyph is exactly [spacing] spaces, whatever the
    scale.  Processing one more character appends to every accumulator
    row the expanded row of its glyph (the row that the character alone
    gives at spacing 0) followed by [spacing] spaces; so two adjacent
    glyphs are [spacing] characters apart. *)
Theorem C7_gap_is_spacing (text : str) (ch : char) (draw : str)
    (scale spacing : Z) :
  1 ≤ scale →
  1 ≤ spacing →
  (∃ rows_text rows_ch rows : list str,
     render_rows text draw scale spacing = Ok rows_text
     ∧ render_rows [ch] draw scale 0 = Ok rows_ch
     ∧ render_rows (text ++ [ch]) draw scale spacing = Ok rows
     ∧ length rows_text = Z.to_nat (7 * scale)
     ∧ length rows_ch = Z.to_nat (7 * scale)
     ∧ length rows = Z.to_nat (7 * scale)
     ∧ ∀ i a g,
         rows_text !! i = Some a →
         rows_ch !! i = Some g →
         rows !! i = Some (a ++ g ++ replicate (Z.to_nat spacing) ch_space))
  ∧ length (str_mul [ch_space] spacing) = Z.to_nat spacing
  ∧ ∀ c1 c2, gap_between c1 c2 draw scale spacing spacing.
Proof.
  intros Hscale Hspacing. split; [|split; [apply length_str_mul_char|]].
  - exists (reference_rows text draw scale spacing),
           (reference_rows [ch] draw scale 0),
           (reference_rows (text ++ [ch]) draw scale spacing).
    split; [by apply render_rows_spec|].
    split; [by apply render_rows_spec|].
    split; [by apply render_rows_spec|].
    split; [apply length_reference_rows|].
    split; [apply length_reference_rows|].
    split; [apply length_reference_rows|].
    intros i a g Ha Hg.
    apply lookup_reference_rows in Ha as [-> Hi].
    apply lookup_reference_rows in Hg as [-> _].
    unfold reference_rows. rewrite list_lookup_fmap, lookup_seq_lt by done.
    cbn [fmap option_fmap option_map]. rewrite Nat.add_0_l. f_equal.
    rewrite text_row_app, !text_row_cons. f_equal.
    change (Z.to_nat 0) with 0%nat. cbn [replicate].
    unfold text_row. cbn [fmap list_fmap mjoin list_join].
    by rewrite !app_nil_r.
  - intros c1 c2. exists (reference_rows [c1; c2] draw scale spacing).
    split; [by apply render_rows_spec|].
    split; [apply length_reference_rows|].
    intros i row Hrow. apply lookup_reference_rows in Hrow as [-> _].
    eexists. rewrite !text_row_cons. reflexivity.
Qed.

Lemma C7_gap_is_spacing_witness :
  (∃ rows_text rows_ch rows : list str,
     render_rows (lit "HI") (lit "#") 2 3 = Ok rows_text
     ∧ render_rows [73%N] (lit "#") 2 0 = Ok rows_ch
     ∧ render_rows (lit "HI" ++ [73%N]) (lit "#") 2 3 = Ok rows
     ∧ length rows_text = Z.to_nat (7 * 2)
     ∧ length rows_ch = Z.to_nat (7 * 2)
     ∧ length rows = Z.to_nat (7 * 2)
     ∧ ∀ i a g,
         rows_text !! i = Some a →
         rows_ch !! i = Some g →
         rows !! i = Some (a ++ g ++ replicate (Z.to_nat 3) ch_space))
  ∧ length (str_mul [ch_space] 3) = Z.to_nat 3
  ∧ ∀ c1 c2, gap_between c1 c2 (lit "#") 2 3 3.
Proof. apply (C7_gap_is_spacing (lit "HI") 73%N (lit "#") 2 3); lia. Defined.

(** * [render_text] on the interpreter *)

(** ** Helper facts *)

Lemma as_index_fits (n : Z) : fits_index n → as_index n = Ok n.
Proof. intros Hn. unfold as_index. by rewrite decide_True. Qed.

Lemma as_index_overflow (n : Z) :
  ¬ fits_index n →
  as_index n
  = Raise (OverflowError "cannot fit 'int' into an index-sized integer").
Proof. intros Hn. unfold as_index. by rewrite decide_False. Qed.

Lemma str_repeat_ok (s : str) (n : Z) :
  fits_index n →
  n < 1 ∨ Z.of_nat (length s) * n ≤ PY_SSIZE_T_MAX →
  str_repeat s n = Ok (str_mul s n).
Proof.
  intros Hn Hlen. unfold str_repeat. rewrite as_index_fits by done.
  cbn [bind]. destruct (decide (n < 1)) as [Hlt|Hge].
  - by rewrite str_mul_nonpos by lia.
  - destruct Hlen as [Hlt|Hlen]; [lia|].
    rewrite decide_False; [done|].
    apply Z.le_ngt, Z.div_le_lower_bound; lia.
Qed.

Lemma str_repeat_too_long (s : str) (n : Z) :
  fits_index n →
  1 ≤ n →
  PY_SSIZE_T_MAX < Z.of_nat (length s) * n →
  str_repeat s n = Raise (OverflowError "repeated string is too long").
Proof.
  intros Hn Hge Hlen. unfold str_repeat. rewrite as_index_fits by done.
  cbn [bind]. rewrite decide_False by lia.
  rewrite decide_True; [done|].
  apply Z.div_lt_upper_bound; lia.
Qed.

Lemma str_repeat_space (n : Z) :
  fits_index n → str_repeat [ch_space] n = Ok (str_mul [ch_space] n).
Proof.
  intros Hn. apply str_repeat_ok; [done|].
  destruct (decide (n < 1)); [by left | right].
  unfold fits_index in Hn. cbn [length]. lia.
Qed.

(** A loop keeps an invariant of its state, or ends in one of the
    exceptions that its body can raise. *)
Lemma for_each_inv {A S} (P : S → Prop) (E : exn → Prop) (xs : list A)
    (body : S → A → result S) (s : S) :
  P s →
  (∀ s x, x ∈ xs → P s →
     match body s x with Ok s' => P s' | Raise e => E e end) →
  match for_each xs body s with Ok s' => P s' | Raise e => E e end.
Proof.
  revert s. induction xs as [|x xs IH]; intros s Hs Hbody; [done|].
  cbn [for_each]. pose proof (Hbody s x (list_elem_of_here _ _) Hs) as Hx.
  destruct (body s x) as [s'|e]; cbn [bind]; [|done].
  apply IH; [done|]. intros s0 y Hy. apply Hbody. by right.
Qed.

Section interpreter.
Context (draw : str) (scale : Z).
Context (Hscale : 1 ≤ scale) (Hfits : fits_index scale).

Lemma expand_row_rt_ok (row_pattern : str) :
  Z.of_nat (length draw) * scale ≤ PY_SSIZE_T_MAX →
  expand_row_rt draw scale row_pattern
  = Ok (expand_row draw scale row_pattern).
Proof.
  intros Hlen. unfold expand_row_rt, expand_row.
  rewrite str_repeat_ok by auto. rewrite str_repeat_space by done.
  enough (∀ acc,
    for_each row_pattern
      (λ out_row bit,
         cell ←! (if decide (bit = ch_one) then Ok (str_mul draw scale)
                  else Ok (str_mul [ch_space] scale));
         Ok (out_row ++ cell))
      acc
    = Ok (foldl (λ out_row bit,
                   out_row ++ (if decide (bit = ch_one)
                               then str_mul draw scale
                               else str_mul [ch_space] scale))
                acc row_pattern)) as H by apply H.
  induction row_pattern as [|bit p IH]; intros acc; [done|].
  cbn [for_each foldl]. case_decide; cbn [bind]; apply IH.
Qed.

Lemma expand_row_rt_cases (row_pattern : str) :
  match expand_row_rt draw scale row_pattern with
  | Ok _ => True
  | Raise e => too_long draw scale e
  end.
Proof.
  unfold expand_row_rt.
  apply (for_each_inv (λ _, True) (too_long draw scale)); [done|].
  intros out_row bit _ _. case_decide.
  - destruct (decide (Z.of_nat (length draw) * scale ≤ PY_SSIZE_T_MAX)).
    + by rewrite str_repeat_ok by auto.
    + rewrite str_repeat_too_long by (done || lia). cbn [bind].
      split; [done | lia].
  - by rewrite str_repeat_space.
Qed.

Lemma render_bitmap_rt_ok (sep : str) (bitmap rows : list str) :
  Z.of_nat (length draw) * scale ≤ PY_SSIZE_T_MAX →
  render_bitmap_rt draw scale sep bitmap rows
  = render_bitmap draw scale sep bitmap rows.
Proof.
  intros Hlen. unfold render_bitmap_rt, render_bitmap.
  apply for_each_ext. intros rows' [r_i row_pattern].
  by rewrite expand_row_rt_ok.
Qed.

(** The loop over a bitmap of 7 rows keeps the number of accumulator
    rows, and raises nothing but the refusal of a too long cell. *)
Lemma render_bitmap_rt_cases (sep : str) (bitmap rows : list str) :
  length bitmap = 7%nat →
  length rows = Z.to_nat (7 * scale) →
  match render_bitmap_rt draw scale sep bitmap rows with
  | Ok rows' => length rows' = Z.to_nat (7 * scale)
  | Raise e => too_long draw scale e
  end.
Proof.
  intros Hb Hrows. unfold render_bitmap_rt.
  apply (for_each_inv (λ rows, length rows = Z.to_nat (7 * scale))
           (too_long draw scale));
    [done|].
  intros rows' [r_i row_pattern] Hin Hlen.
  unfold enumerate in Hin. apply list_elem_of_lookup in Hin as [k Hk].
  apply lookup_zip_with_Some in Hk as (r & p & [= <- <-] & Hr & _).
  apply lookup_seqZ in Hr as [-> Hr]. rewrite Hb in Hr.
  pose proof (expand_row_rt_cases row_pattern) as Hrow.
  destruct (expand_row_rt draw scale row_pattern) as [out_row|e];
    cbn [bind]; [|done].
  apply (for_each_inv (λ rows, length rows = Z.to_nat (7 * scale))
           (too_long draw scale));
    [done|].
  intros rows0 v Hv Hlen0. unfold range in Hv.
  apply list_elem_of_lookup in Hv as [j Hj].
  apply lookup_seqZ in Hj as [-> Hj].
  replace ((0 + Z.of_nat k) * scale + (0 + Z.of_nat j))
    with (Z.of_nat (Z.to_nat (Z.of_nat k * scale + Z.of_nat j))) by nia.
  rewrite iadd_item_in_range by nia.
  by rewrite length_alter.
Qed.
End interpreter.

(** Within the index limits and with memory to spare, the interpreter
    gives what the language defines. *)
Lemma render_text_rt_ideal (text draw : str) (scale spacing : Z) :
  1 ≤ scale →
  7 * scale ≤ PY_SSIZE_T_MAX →
  fits_index spacing →
  Z.of_nat (length draw) * scale ≤ PY_SSIZE_T_MAX →
  render_text_rt false text draw scale spacing
  = render_text text draw scale spacing.
Proof.
  intros Hscale H7 Hsp Hdraw.
  assert (fits_index scale) as Hfits by (unfold fits_index in *; lia).
  unfold render_text_rt, render_text, render_rows.
  rewrite !decide_False by lia.
  rewrite as_index_fits by (unfold fits_index in *; lia).
  cbn [bind alloc]. rewrite str_repeat_space by done. cbn [bind].
  f_equal. apply for_each_ext. intros rows ch.
  by apply render_bitmap_rt_ok.
Qed.

(** Every exception of [render_text] on the interpreter: the scale check,
    a count that does not fit an index, memory, or a cell that would be
    too long.  It never is [IndexError]. *)
Lemma render_text_rt_raises (oom : bool) (text draw : str)
    (scale spacing : Z) (e : exn) :
  render_text_rt oom text draw scale spacing = Raise e →
  (scale < 1 ∧ e = ValueError "scale must be >= 1")
  ∨ (1 ≤ scale
     ∧ e = OverflowError "cannot fit 'int' into an index-sized integer"
     ∧ (¬ fits_index (7 * scale) ∨ ¬ fits_index spacing))
  ∨ (1 ≤ scale ∧ oom = true ∧ e = MemoryError)
  ∨ (1 ≤ scale
     ∧ e = OverflowError "repeated string is too long"
     ∧ PY_SSIZE_T_MAX < Z.of_nat (length draw) * scale).
Proof.
  unfold render_text_rt.
  destruct (decide (scale < 1)) as [Hlt|Hge].
  { intros [= <-]. by left. }
  destruct (decide (fits_index (7 * scale))) as [H7|H7].
  2:{ rewrite as_index_overflow by done. cbn [bind].
      intros [= <-]. right. left.
      split; [lia|]. split; [done|]. by left. }
  rewrite as_index_fits by done. cbn [bind].
  destruct oom; cbn [alloc bind].
  { intros [= <-]. right. right. left. split; [lia|]. done. }
  destruct (decide (fits_index spacing)) as [Hsp|Hsp].
  2:{ unfold str_repeat. rewrite as_index_overflow by done. cbn [bind].
      intros [= <-]. right. left.
      split; [lia|]. split; [done|]. by right. }
  rewrite str_repeat_space by done. cbn [bind].
  assert (fits_index scale) as Hfits by (unfold fits_index in *; lia).
  pose proof (for_each_inv
    (λ rows : list str, length rows = Z.to_nat (7 * scale))
    (too_long draw scale) text
    (λ rows ch,
       render_bitmap_rt draw scale (str_mul [ch_space] spacing)
         (bitmap_of ch) rows)
    (replicate (Z.to_nat (7 * scale)) [])) as Hloop.
  destruct (for_each text _ _) as [rows|e'] eqn:E; cbn [bind];
    [discriminate|].
  intros [= <-]. right. right. right.
  destruct Hloop as [-> Hlong].
  - apply length_replicate.
  - intros rows ch _ Hlen.
    apply render_bitmap_rt_cases;
      [lia | done | apply length_bitmap_of | done].
  - split; [lia|]. done.
Qed.

(** C10 fails as stated: a negative spacing below [-2^63] does not fit an
    index-sized integer, and [" " * spacing] raises [OverflowError] (or the
    call has run out of memory before). *)
Lemma C10_overflow_counterexample :
  render_text_rt false (lit "Hi") (lit "#") 1 (- 2 ^ 63 - 1)
  = Raise (OverflowError "cannot fit 'int' into an index-sized integer")
  ∧ ∀ oom, ¬ ∃ out,
      render_text_rt oom (lit "Hi") (lit "#") 1 (- 2 ^ 63 - 1) = Ok out.
Proof.
  split; [by vm_compute|].
  intros [|] [out Hout]; vm_compute in Hout; discriminate Hout.
Qed.

(** C10, amended: for every text, draw symbol, scale >= 1 and every
    negative spacing that fits an index-sized integer
    ([-2^63 <= spacing < 0]), the separator is the empty string and the
    result of [render_text], or its error, is the one for spacing 0: the
    negative spacing makes nothing fail.  Where [7 * scale] and the length
    of a cell fit an index and memory lasts, the result is a string, the
    one that the language defines. *)
Theorem C10_negative_spacing (oom : bool) (text draw : str)
    (scale spacing : Z) :
  1 ≤ scale →
  - 2 ^ 63 ≤ spacing < 0 →
  str_repeat [ch_space] spacing = Ok []
  ∧ render_text_rt oom text draw scale spacing
    = render_text_rt oom text draw scale 0
  ∧ (oom = false →
     7 * scale ≤ PY_SSIZE_T_MAX →
     Z.of_nat (length draw) * scale ≤ PY_SSIZE_T_MAX →
     ∃ out,
       render_text_rt oom text draw scale spacing = Ok out
       ∧ render_text text draw scale spacing = Ok out
       ∧ render_text text draw scale 0 = Ok out).
Proof.
  intros Hscale Hneg.
  assert (fits_index spacing) as Hfits
    by (unfold fits_index, PY_SSIZE_T_MAX; lia).
  assert (str_repeat [ch_space] spacing = Ok []) as Hsep.
  { rewrite str_repeat_space by done. by rewrite str_mul_nonpos by lia. }
  assert (str_repeat [ch_space] 0 = Ok []) as Hsep0 by done.
  split; [done|]. split.
  - unfold render_text_rt. by rewrite Hsep, Hsep0.
  - intros -> H7 Hdraw.
    rewrite render_text_rt_ideal by done.
    assert (render_text text draw scale 0
            = render_text text draw scale spacing) as ->.
    { unfold render_text, render_rows.
      rewrite (str_mul_nonpos [ch_space] 0) by lia.
      by rewrite (str_mul_nonpos [ch_space] spacing) by lia. }
    rewrite render_text_spec by done. by eexists.
Qed.

Lemma C10_negative_spacing_witness :
  str_repeat [ch_space] (-3) = Ok []
  ∧ render_text_rt false (lit "Hi") (lit "#") 2 (-3)
    = render_text_rt false (lit "Hi") (lit "#") 2 0
  ∧ (false = false →
     7 * 2 ≤ PY_SSIZE_T_MAX →
     Z.of_nat (length (lit "#")) * 2 ≤ PY_SSIZE_T_MAX →
     ∃ out,
       render_text_rt false (lit "Hi") (lit "#") 2 (-3) = Ok out
       ∧ render_text (lit "Hi") (lit "#") 2 (-3) = Ok out
       ∧ render_text (lit "Hi") (lit "#") 2 0 = Ok out).
Proof.
  apply (C10_negative_spacing false (lit "Hi") (lit "#") 2 (-3)); lia.
Defined.

(** * Properties of [main] *)

(** ** Helper facts *)

Lemma rstrip_set_nil_iff (chars s : str) :
  rstrip_set chars s = [] ↔ Forall (λ c, c ∈ chars) s.
Proof.
  induction s as [|c s IH]; cbn [rstrip_set].
  - split; [constructor | done].
  - destruct (rstrip_set chars s) as [|d t] eqn:E.
    + case_bool_decide as Hc.
      * split; [|done]. intros _. constructor; [done|]. by apply IH.
      * split; [done|]. intros H. by inversion H.
    + split; [done|]. intros H. inversion H as [|? ? _ Hs]; subst.
      by apply IH in Hs.
Qed.

Lemma rstrip_set_app (chars s w : str) :
  Forall (λ c, c ∈ chars) w →
  rstrip_set chars (s ++ w) = rstrip_set chars s.
Proof.
  intros Hw. induction s as [|c s IH].
  - by apply rstrip_set_nil_iff.
  - change (rstrip_set chars ((c :: s) ++ w))
      with (match rstrip_set chars (s ++ w) with
            | [] => if bool_decide (c ∈ chars) then [] else [c]
            | t => c :: t
            end).
    by rewrite IH.
Qed.

(** Without [--scale] the scale is that of the preset. *)
Lemma resolve_scale_preset (args : namespace) :
  arg_scale args = None →
  resolve_scale args
  = match arg_size args with
    | small => 1
    | medium => 2
    | large => 4
    | huge => 8
    end.
Proof.
  intros Hs. unfold resolve_scale. rewrite Hs.
  by destruct (arg_size args); vm_compute.
Qed.

Lemma resolve_scale_valid (args : namespace) :
  (∀ scale, arg_scale args = Some scale → 1 ≤ scale) →
  1 ≤ resolve_scale args.
Proof.
  intros Hs. destruct (arg_scale args) as [scale|] eqn:E.
  - unfold resolve_scale. rewrite E. by apply Hs.
  - rewrite resolve_scale_preset by done. destruct (arg_size args); lia.
Qed.

(** [main] on a text that is not empty. *)
Lemma main_render (env : environment) (args : namespace) (stdin : str)
    (c : char) (text : str) :
  resolve_text args stdin = Some (c :: text) →
  main env args stdin
  = match render_text_rt (env_oom env) (c :: text) (arg_draw args)
            (resolve_scale args) (arg_spacing args) with
    | Raise e =>
        ([Stderr (lit "Error: " ++ exn_str e ++ [ch_newline])], SysExit 2)
    | Ok out =>
        match arg_output args with
        | Some (p :: path) =>
            match env_write env (p :: path) out with
            | Some e => ([], Uncaught e)
            | None =>
                ([FileWrite (p :: path) out;
                  Stdout (lit "Wrote ASCII art to " ++ (p :: path)
                          ++ [ch_newline])],
                 Return)
            end
        | _ => ([Stdout (out ++ [ch_newline])], Return)
        end
    end.
Proof. intros Htext. unfold main. by rewrite Htext. Qed.

(** When [render_text] returns, [main] does not end with [SystemExit]
    and writes nothing to the error stream. *)
Lemma main_delivery_no_exit (env : environment) (args : namespace)
    (out : str) :
  let outcome :=
    match arg_output args with
    | Some (p :: path) =>
        match env_write env (p :: path) out with
        | Some e => ([], Uncaught e)
        | None =>
            ([FileWrite (p :: path) out;
              Stdout (lit "Wrote ASCII art to " ++ (p :: path)
                      ++ [ch_newline])],
             Return)
        end
    | _ => ([Stdout (out ++ [ch_newline])], Return)
    end in
  (∀ code, outcome.2 ≠ SysExit code) ∧ (∀ s, outcome.1 ≠ [Stderr s]).
Proof.
  cbn zeta.
  destruct (arg_output args) as [[|p path]|]; [| |]; try (by split).
  destruct (env_write env (p :: path) out); by split.
Qed.

Lemma stderr_line_inj (a b : str) :
  ([Stderr (lit "Error: " ++ a ++ [ch_newline])], SysExit 2)
  = ([Stderr (lit "Error: " ++ b ++ [ch_newline])], SysExit 2) →
  a = b.
Proof.
  intros H.
  assert (lit "Error: " ++ a ++ [ch_newline]
          = lit "Error: " ++ b ++ [ch_newline]) as H' by congruence.
  by apply app_inv_head, app_inv_tail in H'.
Qed.

(** The message of the scale check is that of no other exception of
    [render_text]. *)
Lemma scale_message_only (oom : bool) (text draw : str)
    (scale spacing : Z) (e : exn) :
  render_text_rt oom text draw scale spacing = Raise e →
  exn_str e = lit "scale must be >= 1" →
  scale < 1.
Proof.
  intros Hraise Hstr.
  destruct (render_text_rt_raises _ _ _ _ _ _ Hraise)
    as [[Hlt _]|[(_ & -> & _)|[(_ & _ & ->)|(_ & -> & _)]]];
    [done| | |]; vm_compute in Hstr; discriminate Hstr.
Qed.

(** ** Properties *)

(** X7: once the arguments are parsed, [main] prints the help and
    returns, doing nothing else, exactly when there is no text: under
    [--stdin] when standard input holds nothing but line breaks, otherwise
    when the positional text is missing or empty. *)
Theorem X7_main_help_iff_no_text (env : environment) (args : namespace)
    (stdin : str) :
  main env args stdin = ([PrintHelp], Return)
  ↔ (arg_stdin args = true ∧ Forall (λ c, c = ch_newline) stdin)
    ∨ (arg_stdin args = false
       ∧ (arg_text args = None ∨ arg_text args = Some [])).
Proof.
  assert (resolve_text args stdin = None ∨ resolve_text args stdin = Some []
          ↔ (arg_stdin args = true ∧ Forall (λ c, c = ch_newline) stdin)
            ∨ (arg_stdin args = false
               ∧ (arg_text args = None ∨ arg_text args = Some []))) as <-.
  { unfold resolve_text. destruct (arg_stdin args).
    - split.
      + intros [Hn|Hs]; [discriminate Hn|]. left. split; [done|].
        apply (inj Some), rstrip_set_nil_iff in Hs.
        eapply Forall_impl; [exact Hs|]. intros c Hc.
        by apply list_elem_of_singleton in Hc.
      + intros [[_ Hall]|[Hf _]]; [|discriminate Hf]. right. f_equal.
        apply rstrip_set_nil_iff.
        eapply Forall_impl; [exact Hall|]. intros c ->.
        by apply list_elem_of_singleton.
    - split; [intros H; by right | intros [[Hf _]|[_ H]]; [discriminate Hf|]].
      done. }
  destruct (resolve_text args stdin) as [[|c text]|] eqn:Htext.
  - unfold main. rewrite Htext. split; [by right | done].
  - rewrite (main_render env args stdin c text Htext). split.
    + destruct (render_text_rt _ _ _ _ _); [|discriminate].
      destruct (arg_output args) as [[|p path]|]; try discriminate.
      destruct (env_write env (p :: path) a); discriminate.
    + intros [H|H]; discriminate H.
  - unfold main. rewrite Htext. split; [by left | done].
Qed.

(** X8: the program ends with exit status 2 exactly when [argparse]
    rejects the arguments or, the arguments parsed and the text not empty,
    [render_text] raises; [main] has then written "Error: " and the
    message of the exception to the error stream, and nothing else.  The
    message of the scale check is the outcome exactly when [--scale] is
    given below 1: no preset size and no other exception gives it. *)
Theorem X8_main_exit_status (env : environment) (parse : parse_outcome)
    (stdin : str) :
  ((run_main env parse stdin).2 = SysExit 2
   ↔ parse = ParseError
     ∨ ∃ args c text e,
         parse = Parsed args
         ∧ resolve_text args stdin = Some (c :: text)
         ∧ render_text_rt (env_oom env) (c :: text) (arg_draw args)
             (resolve_scale args) (arg_spacing args) = Raise e
         ∧ (run_main env parse stdin).1
           = [Stderr (lit "Error: " ++ exn_str e ++ [ch_newline])])
  ∧ (run_main env parse stdin
     = ([Stderr (lit "Error: scale must be >= 1" ++ [ch_newline])], SysExit 2)
     ↔ ∃ args c text scale,
         parse = Parsed args
         ∧ resolve_text args stdin = Some (c :: text)
         ∧ arg_scale args = Some scale
         ∧ scale < 1).
Proof.
  destruct parse as [| |args]; cbn [run_main].
  - split; (split; [discriminate|]).
    + intros [H|(? & ? & ? & ? & H & _)]; discriminate H.
    + intros (? & ? & ? & ? & H & _); discriminate H.
  - split; split.
    + by left.
    + done.
    + discriminate.
    + intros (? & ? & ? & ? & H & _); discriminate H.
  - destruct (resolve_text args stdin) as [[|c text]|] eqn:Htext.
    + unfold main. rewrite Htext. split; (split; [discriminate|]).
      * intros [H|(a & ? & ? & ? & [= <-] & H & _)]; [discriminate H|].
        rewrite Htext in H. discriminate H.
      * intros (a & ? & ? & ? & [= <-] & H & _).
        rewrite Htext in H. discriminate H.
    + rewrite (main_render env args stdin c text Htext).
      destruct (render_text_rt (env_oom env) (c :: text) (arg_draw args)
                  (resolve_scale args) (arg_spacing args))
        as [out|e] eqn:Hrender.
      * pose proof (main_delivery_no_exit env args out) as [Hexit Herr].
        cbn zeta in Hexit, Herr. split; split.
        -- intros H. by apply Hexit in H.
        -- intros [H|(a & c' & t' & e & [= <-] & Hres & H & _)];
             [discriminate H|].
           rewrite Htext in Hres. injection Hres as <- <-.
           rewrite Hrender in H. discriminate H.
        -- intros H. apply (f_equal fst) in H. by apply Herr in H.
        -- intros (a & c' & t' & scale & [= <-] & _ & Hs & Hlt).
           exfalso. clear Hexit Herr.
           unfold render_text_rt, resolve_scale in Hrender.
           rewrite Hs in Hrender. rewrite decide_True in Hrender by done.
           discriminate Hrender.
      * split; split.
        -- intros _. right. by exists args, c, text, e.
        -- done.
        -- change (lit "Error: scale must be >= 1")
             with (lit "Error: " ++ lit "scale must be >= 1").
           rewrite <- app_assoc. intros Hmsg.
           apply stderr_line_inj in Hmsg. exists args, c, text.
           pose proof (scale_message_only _ _ _ _ _ _ Hrender Hmsg) as Hlt.
           destruct (arg_scale args) as [scale|] eqn:Hs.
           ++ exists scale. unfold resolve_scale in Hlt. rewrite Hs in Hlt.
              done.
           ++ pose proof (resolve_scale_valid args) as Hv.
              rewrite Hs in Hv. exfalso.
              assert (1 ≤ resolve_scale args) by (by apply Hv). lia.
        -- intros (a & c' & t' & scale & [= <-] & _ & Hs & Hlt).
           unfold render_text_rt, resolve_scale in Hrender.
           rewrite Hs in Hrender. rewrite decide_True in Hrender by done.
           by injection Hrender as <-.
    + unfold main. rewrite Htext. split; (split; [discriminate|]).
      * intros [H|(a & ? & ? & ? & [= <-] & H & _)]; [discriminate H|].
        rewrite Htext in H. discriminate H.
      * intros (a & ? & ? & ? & [= <-] & H & _).
        rewrite Htext in H. discriminate H.
Qed.

(** X9: when there is a text, [--scale], if given, is at least 1, the
    counts fit an index and memory lasts, [main] delivers the rendering
    that the language defines for the text at the resolved scale.  With an
    output path that is not empty it writes exactly the rendering to that
    file, names the path on standard output and returns; when the file
    cannot be written it ends with the uncaught exception and has printed
    nothing.  Without a path it prints the rendering, which ends in a
    line break, followed by one more line break. *)
Theorem X9_main_delivers_rendering (env : environment) (args : namespace)
    (stdin : str) (c : char) (text : str) :
  resolve_text args stdin = Some (c :: text) →
  (∀ scale, arg_scale args = Some scale → 1 ≤ scale) →
  env_oom env = false →
  7 * resolve_scale args ≤ PY_SSIZE_T_MAX →
  fits_index (arg_spacing args) →
  Z.of_nat (length (arg_draw args)) * resolve_scale args ≤ PY_SSIZE_T_MAX →
  ∃ body : str,
    render_text (c :: text) (arg_draw args) (resolve_scale args)
      (arg_spacing args) = Ok (body ++ [ch_newline])
    ∧ main env args stdin
      = match arg_output args with
        | Some (p :: path) =>
            match env_write env (p :: path) (body ++ [ch_newline]) with
            | Some e => ([], Uncaught e)
            | None =>
                ([FileWrite (p :: path) (body ++ [ch_newline]);
                  Stdout (lit "Wrote ASCII art to " ++ (p :: path)
                          ++ [ch_newline])],
                 Return)
            end
        | _ => ([Stdout (body ++ [ch_newline; ch_newline])], Return)
        end.
Proof.
  intros Htext Hscale Hoom H7 Hsp Hdraw.
  pose proof (resolve_scale_valid args Hscale) as Hge.
  rewrite (main_render env args stdin c text Htext), Hoom.
  rewrite render_text_rt_ideal by done.
  rewrite render_text_spec by done.
  eexists. split; [done|].
  destruct (arg_output args) as [[|p path]|]; try done;
    by rewrite <- app_assoc.
Qed.

Lemma X9_main_delivers_rendering_witness :
  ∃ body : str,
    render_text (72%N :: lit "i") (lit "#")
      (resolve_scale
         {| arg_text := Some (lit "Hi"); arg_draw := lit "#";
            arg_scale := None; arg_size := small; arg_spacing := 1;
            arg_output := Some (lit "out.txt"); arg_stdin := false |}) 1
    = Ok (body ++ [ch_newline])
    ∧ main {| env_oom := false; env_write := λ _ _, None |}
        {| arg_text := Some (lit "Hi"); arg_draw := lit "#";
           arg_scale := None; arg_size := small; arg_spacing := 1;
           arg_output := Some (lit "out.txt"); arg_stdin := false |} []
      = ([FileWrite (lit "out.txt") (body ++ [ch_newline]);
          Stdout (lit "Wrote ASCII art to " ++ lit "out.txt"
                  ++ [ch_newline])], Return).
Proof.
  apply (X9_main_delivers_rendering
           {| env_oom := false; env_write := λ _ _, None |}
           {| arg_text := Some (lit "Hi"); arg_draw := lit "#";
              arg_scale := None; arg_size := small; arg_spacing := 1;
              arg_output := Some (lit "out.txt"); arg_stdin := false |}
           [] 72%N (lit "i")).
  - reflexivity.
  - intros scale Hs. discriminate Hs.
  - reflexivity.
  - vm_compute. discriminate.
  - vm_compute. split; discriminate.
  - vm_compute. discriminate.
Defined.

(** X10: under [--stdin] line breaks at the end of standard input make no
    difference to what [main] does. *)
Theorem X10_main_stdin_trailing_newlines (env : environment)
    (args : namespace) (stdin : str) (k : nat) :
  arg_stdin args = true →
  main env args (stdin ++ replicate k ch_newline) = main env args stdin.
Proof.
  intros Hstdin. unfold main, resolve_text. rewrite Hstdin.
  rewrite rstrip_set_app; [done|].
  apply Forall_replicate. by apply list_elem_of_singleton.
Qed.

Lemma X10_main_stdin_trailing_newlines_witness :
  main {| env_oom := false; env_write := λ _ _, None |}
    {| arg_text := None; arg_draw := lit "#"; arg_scale := Some 1;
       arg_size := large; arg_spacing := 1; arg_output := None;
       arg_stdin := true |} (lit "Hi" ++ replicate 2 ch_newline)
  = main {| env_oom := false; env_write := λ _ _, None |}
      {| arg_text := None; arg_draw := lit "#"; arg_scale := Some 1;
         arg_size := large; arg_spacing := 1; arg_output := None;
         arg_stdin := true |} (lit "Hi").
Proof.
  apply (X10_main_stdin_trailing_newlines
           {| env_oom := false; env_write := λ _ _, None |}
           {| arg_text := None; arg_draw := lit "#"; arg_scale := Some 1;
              arg_size := large; arg_spacing := 1; arg_output := None;
              arg_stdin := true |} (lit "Hi") 2).
  reflexivity.
Defined.

(** * The interpreter against the language *)

(** X12: for a scale of at least 1, when [7 * scale], the spacing and the
    length of a cell [draw * scale] fit an index-sized integer and memory
    lasts, [render_text] on the interpreter returns a string, the one that
    the language defines. *)
Theorem X12_interpreter_agrees (text draw : str) (scale spacing : Z) :
  1 ≤ scale →
  7 * scale ≤ PY_SSIZE_T_MAX →
  fits_index spacing →
  Z.of_nat (length draw) * scale ≤ PY_SSIZE_T_MAX →
  render_text_rt false text draw scale spacing
  = render_text text draw scale spacing
  ∧ ∃ out, render_text_rt false text draw scale spacing = Ok out.
Proof.
  intros Hscale H7 Hsp Hdraw.
  rewrite render_text_rt_ideal by done. split; [done|].
  rewrite render_text_spec by done. by eexists.
Qed.

Lemma X12_interpreter_agrees_witness :
  render_text_rt false (lit "Hi") (lit "#") 2 1
  = render_text (lit "Hi") (lit "#") 2 1
  ∧ ∃ out, render_text_rt false (lit "Hi") (lit "#") 2 1 = Ok out.
Proof.
  apply (X12_interpreter_agrees (lit "Hi") (lit "#") 2 1).
  - lia.
  - vm_compute. discriminate.
  - vm_compute. split; discriminate.
  - vm_compute. discriminate.
Defined.

(** X13: the exceptions of [render_text] on the interpreter.  It raises
    the [ValueError] of the scale check exactly when [scale < 1], whatever
    the other arguments and the memory.  Any other exception is an
    [OverflowError] for a count that does not fit an index ([7 * scale] or
    the spacing), a [MemoryError], or an [OverflowError] for a cell
    [draw * scale] that would be too long; an [IndexError] of the row
    updates never occurs. *)
Theorem X13_interpreter_exceptions (oom : bool) (text draw : str)
    (scale spacing : Z) :
  (render_text_rt oom text draw scale spacing
     = Raise (ValueError "scale must be >= 1") ↔ scale < 1)
  ∧ render_text_rt oom text draw scale spacing ≠ Raise IndexError
  ∧ ∀ e,
      render_text_rt oom text draw scale spacing = Raise e →
      (scale < 1 ∧ e = ValueError "scale must be >= 1")
      ∨ (1 ≤ scale
         ∧ e = OverflowError "cannot fit 'int' into an index-sized integer"
         ∧ (¬ fits_index (7 * scale) ∨ ¬ fits_index spacing))
      ∨ (1 ≤ scale ∧ oom = true ∧ e = MemoryError)
      ∨ (1 ≤ scale
         ∧ e = OverflowError "repeated string is too long"
         ∧ PY_SSIZE_T_MAX < Z.of_nat (length draw) * scale).
Proof.
  split; [|split].
  - split.
    + intros Hraise.
      destruct (render_text_rt_raises _ _ _ _ _ _ Hraise)
        as [[Hlt _]|[(_ & [=] & _)|[(_ & _ & [=])|(_ & [=] & _)]]].
      done.
    + intros Hlt. unfold render_text_rt. by rewrite decide_True.
  - intros Hraise.
    destruct (render_text_rt_raises _ _ _ _ _ _ Hraise)
      as [[_ [=]]|[(_ & [=] & _)|[(_ & _ & [=])|(_ & [=] & _)]]].
  - apply render_text_rt_raises.
Qed.
